(** * Coffee shop CRUD service (src/main.py)

    A shallow embedding of the FastAPI application of [src/main.py]: the
    SQLAlchemy model [Coffee], the pydantic schemas [CoffeeCreate] and
    [CoffeeRead], the five request handlers, the request validation that
    FastAPI runs before a handler is entered and the serialisation of what
    the handler returns.

    The relational store is threaded explicitly: a handler is a function
    from the database state to the new state and to what it returns or
    raises.  A [str] is modelled by its UTF-8 bytes; a [str] that has no
    UTF-8 encoding (a lone surrogate) is outside the model. *)

From Stdlib Require Import ZArith String Ascii List.
From Corelib Require Import SpecFloat.
From stdpp Require Import gmap strings list relations.

Local Open Scope string_scope.
Local Open Scope Z_scope.

(** ** Values *)

(** Python's [float] and the [Float] column are both IEEE 754 binary64
    values.  The handlers never compute on a price, they only move it. *)
Definition float : Type := spec_float.

(** [float_of_dyadic m e] is the binary64 value nearest to [m * 2^e]. *)
Definition float_of_dyadic (m e : Z) : float := binary_normalize 53 1024 m e false.

(** Neither an infinity nor a NaN. *)
Definition is_finite (x : float) : bool :=
  match x with
  | S754_zero _ | S754_finite _ _ _ => true
  | S754_infinity _ | S754_nan => false
  end.

Definition is_zero (x : float) : bool :=
  match x with
  | S754_zero _ => true
  | _ => false
  end.

(** Python's [x == y] on floats: a NaN equals nothing, the two zeros are
    equal. *)
Definition float_eq (x y : float) : bool := SFeqb x y.

(** PostgreSQL refuses text that contains the character NUL. *)
Definition has_nul (s : string) : bool :=
  existsb (fun c => Ascii.eqb c "000"%char) (list_ascii_of_string s).

(** The range of an [Integer] column (int4), and the largest value of a
    sequence (int8). *)
Definition int4_min : Z := -2147483648.
Definition int4_max : Z := 2147483647.
Definition int8_max : Z := 9223372036854775807.

Definition in_int4 (k : Z) : bool := (int4_min <=? k) && (k <=? int4_max).

(** ** Data model *)

(** [class Coffee(Base)]: one row of table [coffees]. *)
Module Coffee.
Record t : Type := mk {
  id : Z;
  name : string;
  description : option string;
  price : float
}.
End Coffee.

(** [class CoffeeCreate(BaseModel)]: the validated request body. *)
Module CoffeeCreate.
Record t : Type := mk {
  name : string;
  description : option string;
  price : float
}.
End CoffeeCreate.

(** [class CoffeeRead(BaseModel)]: the response shape. *)
Module CoffeeRead.
Record t : Type := mk {
  id : Z;
  name : string;
  description : option string;
  price : float
}.

(** [orm_mode = True]: a [CoffeeRead] is built from the attributes of the
    ORM object. *)
Definition from_orm (c : Coffee.t) : t :=
  {| id := Coffee.id c;
     name := Coffee.name c;
     description := Coffee.description c;
     price := Coffee.price c |}.

(** The JSON object that goes out for a [CoffeeRead]; a [json_price] of
    [None] is the JSON [null]. *)
Record json : Type := mk_json {
  json_id : Z;
  json_name : string;
  json_description : option string;
  json_price : option float
}.
End CoffeeRead.

(** The store: the rows of table [coffees] in the order in which a
    [SELECT] without [ORDER BY] lists them, and the next value that
    [coffee_id_seq] hands out. *)
Record Database : Type := mkDatabase {
  coffees : list Coffee.t;
  coffee_id_seq : Z
}.

(** [Base.metadata.create_all] on a fresh database: an empty table and a
    sequence that starts at 1. *)
Definition init_db : Database := {| coffees := []; coffee_id_seq := 1 |}.

(** ** Exceptions *)

(** What a handler raises: the [HTTPException] of the source, or an error
    of the database driver, which no handler catches. *)
Inductive exception : Type :=
| HTTPException (status_code : Z) (detail : string)
| DBAPIError.

Inductive outcome (A : Type) : Type :=
| Return (a : A)
| Raise (e : exception).

Arguments Return {A} a.
Arguments Raise {A} e.

(** ** The session *)

Definition ids (db : Database) : list Z := map Coffee.id (coffees db).

(** [SELECT ... WHERE id = ident]: the row with that primary key, if any. *)
Definition select_by_id (db : Database) (ident : Z) : option Coffee.t :=
  List.find (fun c => Coffee.id c =? ident) (coffees db).

(** [db.get(Coffee, ident)]: the driver refuses a key that is not an int4
    before anything is looked up. *)
Definition db_get (db : Database) (ident : Z) : outcome (option Coffee.t) :=
  if in_int4 ident then Return (select_by_id db ident) else Raise DBAPIError.

(** Text columns that the store takes. *)
Definition storable (name : string) (description : option string) : bool :=
  negb (has_nul name)
  && match description with
     | Some s => negb (has_nul s)
     | None => true
     end.

(** [db.add(new_coffee); db.commit()]: the INSERT takes the id from the
    sequence.  Text with a NUL is refused when the statement is bound,
    before the sequence is asked.  Past that, the sequence value is used up
    even when the row is not stored: when the value does not fit the int4
    column, or when the primary key is already taken. *)
Definition db_insert (name : string) (description : option string) (price : float)
    (db : Database) : Database * outcome Z :=
  if negb (storable name description) then (db, Raise DBAPIError)
  else
    let new_id := coffee_id_seq db in
    if int8_max <? new_id then (db, Raise DBAPIError)
    else
      let used := {| coffees := coffees db; coffee_id_seq := new_id + 1 |} in
      if negb (in_int4 new_id) then (used, Raise DBAPIError)
      else
        match select_by_id db new_id with
        | Some _ => (used, Raise DBAPIError)
        | None =>
            let new_coffee :=
              {| Coffee.id := new_id; Coffee.name := name;
                 Coffee.description := description; Coffee.price := price |} in
            ({| coffees := coffees db ++ [new_coffee];
                coffee_id_seq := new_id + 1 |},
             Return new_id)
        end.

(** [db.commit()] after the three attributes of the loaded [coffee] were
    set.  The unit of work compares each new value with the loaded one by
    [==] and sends the columns that differ; no column, no UPDATE.  Text
    with a NUL is refused.  The new version of the row is the last one a
    [SELECT] lists. *)
Definition db_update (coffee : Coffee.t) (name : string)
    (description : option string) (price : float) (db : Database)
    : Database * outcome unit :=
  let name_set := negb (String.eqb name (Coffee.name coffee)) in
  let description_set :=
    negb (bool_decide (description = Coffee.description coffee)) in
  let price_set := negb (float_eq price (Coffee.price coffee)) in
  if negb (name_set || description_set || price_set) then (db, Return tt)
  else if (name_set && has_nul name)
          || (description_set
              && match description with
                 | Some s => has_nul s
                 | None => false
                 end)
  then (db, Raise DBAPIError)
  else
    let updated :=
      {| Coffee.id := Coffee.id coffee;
         Coffee.name := name;
         Coffee.description := description;
         Coffee.price := if price_set then price else Coffee.price coffee |} in
    ({| coffees :=
          List.filter (fun c => negb (Coffee.id c =? Coffee.id coffee)) (coffees db)
          ++ [updated];
        coffee_id_seq := coffee_id_seq db |},
     Return tt).

(** [db.delete(coffee); db.commit()] *)
Definition db_delete (coffee : Coffee.t) (db : Database) : Database :=
  {| coffees :=
       List.filter (fun c => negb (Coffee.id c =? Coffee.id coffee)) (coffees db);
     coffee_id_seq := coffee_id_seq db |}.

(** ** Request handlers *)

(** [GET /coffees/] *)
Definition get_coffees (db : Database) : outcome (list Coffee.t) :=
  let coffees := coffees db in
  Return coffees.

(** [POST /coffees/] *)
Definition add_coffee (coffee_data : CoffeeCreate.t) (db : Database)
    : Database * outcome Coffee.t :=
  match db_insert (CoffeeCreate.name coffee_data)
                  (CoffeeCreate.description coffee_data)
                  (CoffeeCreate.price coffee_data) db with
  | (db', Raise e) => (db', Raise e)
  | (db', Return new_id) =>
      (* db.refresh(new_coffee) *)
      match db_get db' new_id with
      | Return (Some new_coffee) => (db', Return new_coffee)
      | _ => (db', Raise DBAPIError)
      end
  end.

(** [GET /coffees/{coffee_id}] *)
Definition get_coffee_by_id (coffee_id : Z) (db : Database) : outcome Coffee.t :=
  match db_get db coffee_id with
  | Raise e => Raise e
  | Return None => Raise (HTTPException 404 "Coffee not found")
  | Return (Some coffee) => Return coffee
  end.

(** [PUT /coffees/{coffee_id}] *)
Definition update_coffee (coffee_id : Z) (updated_data : CoffeeCreate.t)
    (db : Database) : Database * outcome Coffee.t :=
  match db_get db coffee_id with
  | Raise e => (db, Raise e)
  | Return None => (db, Raise (HTTPException 404 "Coffee not found"))
  | Return (Some coffee) =>
      match db_update coffee (CoffeeCreate.name updated_data)
                      (CoffeeCreate.description updated_data)
                      (CoffeeCreate.price updated_data) db with
      | (db', Raise e) => (db', Raise e)
      | (db', Return _) =>
          (* db.refresh(coffee) *)
          match db_get db' (Coffee.id coffee) with
          | Return (Some coffee) => (db', Return coffee)
          | _ => (db', Raise DBAPIError)
          end
      end
  end.

(** [DELETE /coffees/{coffee_id}] *)
Definition delete_coffee (coffee_id : Z) (db : Database) : Database * outcome unit :=
  match db_get db coffee_id with
  | Raise e => (db, Raise e)
  | Return None => (db, Raise (HTTPException 404 "Coffee not found"))
  | Return (Some coffee) => (db_delete coffee db, Return tt)
  end.

(** ** HTTP responses *)

Inductive content : Type :=
| CoffeeList (items : list CoffeeRead.json)
| CoffeeItem (item : CoffeeRead.json)
| NoBody
| Detail (detail : string)
| ValidationErrors
| ServerError.

Record response : Type := mkResponse {
  status_code : Z;
  body : content
}.

(** An exception that nothing catches. *)
Definition internal_server_error : response :=
  {| status_code := 500; body := ServerError |}.

(** The request body did not validate against [CoffeeCreate]. *)
Definition request_validation_error : response :=
  {| status_code := 422; body := ValidationErrors |}.

(** The 404 of the three by-id handlers. *)
Definition not_found : response :=
  {| status_code := 404; body := Detail "Coffee not found" |}.

Definition is_failure (r : response) : bool := (400 <=? status_code r)%Z.

(** The pydantic release the application runs on.  [src/main.py] runs on
    both; they differ in what goes out for a price that JSON cannot
    hold. *)
Inductive pydantic : Type :=
| Pydantic1
| Pydantic2.

(** [response_model=CoffeeRead]: what the handler returned is read into a
    [CoffeeRead] and encoded as JSON.  An infinity or a NaN is no JSON
    number: on pydantic 1 the encoding raises, on pydantic 2 the price goes
    out as [null]. *)
Definition serialize_response (release : pydantic) (coffee : Coffee.t)
    : option CoffeeRead.json :=
  let model := CoffeeRead.from_orm coffee in
  let out (price : option float) :=
    {| CoffeeRead.json_id := CoffeeRead.id model;
       CoffeeRead.json_name := CoffeeRead.name model;
       CoffeeRead.json_description := CoffeeRead.description model;
       CoffeeRead.json_price := price |} in
  if is_finite (CoffeeRead.price model) then Some (out (Some (CoffeeRead.price model)))
  else
    match release with
    | Pydantic1 => None
    | Pydantic2 => Some (out None)
    end.

(** What a handler gave back. *)
Inductive returned : Type :=
| Coffees (coffees : list Coffee.t)
| ACoffee (coffee : Coffee.t)
| Nothing.

(** The response FastAPI makes of a handler's outcome; [status_code] is the
    one of the route's decorator. *)
Definition respond (release : pydantic) (status_code : Z) (o : outcome returned)
    : response :=
  match o with
  | Raise (HTTPException status_code detail) =>
      {| status_code := status_code; body := Detail detail |}
  | Raise DBAPIError => internal_server_error
  | Return Nothing => {| status_code := status_code; body := NoBody |}
  | Return (ACoffee coffee) =>
      match serialize_response release coffee with
      | Some item => {| status_code := status_code; body := CoffeeItem item |}
      | None => internal_server_error
      end
  | Return (Coffees coffees) =>
      match mapM (serialize_response release) coffees with
      | Some items => {| status_code := status_code; body := CoffeeList items |}
      | None => internal_server_error
      end
  end.

(** ** Operations on validated input *)

Inductive operation : Type :=
| List_
| Create (input : CoffeeCreate.t)
| Get (coffee_id : Z)
| Update (coffee_id : Z) (input : CoffeeCreate.t)
| Delete (coffee_id : Z).

Definition returning {A : Type} (f : A -> returned) (o : outcome A) : outcome returned :=
  match o with
  | Return a => Return (f a)
  | Raise e => Raise e
  end.

(** The handler of an operation, called on the store. *)
Definition call (op : operation) (db : Database) : Database * outcome returned :=
  match op with
  | List_ => (db, returning Coffees (get_coffees db))
  | Create input =>
      let r := add_coffee input db in (r.1, returning ACoffee r.2)
  | Get coffee_id => (db, returning ACoffee (get_coffee_by_id coffee_id db))
  | Update coffee_id input =>
      let r := update_coffee coffee_id input db in (r.1, returning ACoffee r.2)
  | Delete coffee_id =>
      let r := delete_coffee coffee_id db in (r.1, returning (fun _ => Nothing) r.2)
  end.

(** The status of the route's decorator. *)
Definition success_status (op : operation) : Z :=
  match op with
  | Create _ => 201
  | Delete _ => 204
  | _ => 200
  end.

Definition run (release : pydantic) (op : operation) (db : Database)
    : Database * response :=
  let r := call op db in
  (r.1, respond release (success_status op) r.2).

Definition step (db db' : Database) : Prop := exists op, (call op db).1 = db'.

(** The states a run of operations leads to from [db]. *)
Definition steps (db db' : Database) : Prop := rtc step db db'.

(** Every state the service can be in: what a sequence of requests makes of
    the freshly created schema. *)
Definition reachable (db : Database) : Prop := steps init_db db.

(** The store's integrity: primary keys are unique, and every id in the
    table is an int4 that the sequence handed out. *)
Definition db_ok (db : Database) : Prop :=
  NoDup (ids db)
  /\ Forall (fun i => 1 <= i < coffee_id_seq db /\ i <= int4_max) (ids db)
  /\ 1 <= coffee_id_seq db.

(** ** Request validation *)

(** A value of the decoded JSON request body, as pydantic receives it. *)
#[warnings="-register-all"]
Inductive pyval : Type :=
| PNone
| PBool (b : bool)
| PInt (n : Z)
| PFloat (x : float)
| PStr (s : string)
| PList (items : list pyval)
| PDict (items : list (string * pyval)).

(** What validating a field gives: a value, a validation error, or an
    exception that pydantic does not turn into one. *)
Inductive validation (A : Type) : Type :=
| Valid (a : A)
| Invalid
| Crash.

Arguments Valid {A} a.
Arguments Invalid {A}.
Arguments Crash {A}.

(** Text that no release reads as a number: ASCII only, no digit, and no
    [n] (every spelling of a number has a digit, or is a spelling of
    [inf], [infinity] or [nan]). *)
Definition no_number (s : string) : bool :=
  forallb (fun c =>
             let n := nat_of_ascii c in
             (n <? 128)%nat
             && negb ((48 <=? n)%nat && (n <=? 57)%nat)
             && negb ((n =? 78)%nat || (n =? 110)%nat))
          (list_ascii_of_string s).

(** An [int] that is a binary64 value as it stands. *)
Definition exact_int (n : Z) : bool := Z.abs n <=? 2 ^ 53.

Section Validation.

(** The conversions on which the pydantic releases differ, or which rest on
    Python's parsing and printing of numbers: a number or a boolean for a
    [str] field; a boolean, an [int] beyond 2^53 or text that may spell a
    number for a [float] field.  [src/main.py] does not fix the release,
    so both are parameters. *)
Variable coerce_str : pyval -> validation string.
Variable coerce_float : pyval -> validation float.

(** A field annotated [str]. *)
Definition str_validator (v : pyval) : validation string :=
  match v with
  | PStr s => Valid s
  | PNone | PList _ | PDict _ => Invalid
  | PBool _ | PInt _ | PFloat _ => coerce_str v
  end.

(** A field annotated [float]. *)
Definition float_validator (v : pyval) : validation float :=
  match v with
  | PFloat x => Valid x
  | PInt n => if exact_int n then Valid (float_of_dyadic n 0) else coerce_float v
  | PNone | PList _ | PDict _ => Invalid
  | PStr s => if no_number s then Invalid else coerce_float v
  | PBool _ => coerce_float v
  end.

(** A field without a default: the key has to be there. *)
Definition required {A : Type} (validator : pyval -> validation A)
    (v : option pyval) : validation A :=
  match v with
  | None => Invalid
  | Some v => validator v
  end.

(** A field annotated [Optional[str] = None]. *)
Definition optional_str (v : option pyval) : validation (option string) :=
  match v with
  | None => Valid None
  | Some PNone => Valid None
  | Some v =>
      match str_validator v with
      | Valid s => Valid (Some s)
      | Invalid => Invalid
      | Crash => Crash
      end
  end.

(** Building a [CoffeeCreate] from the body.  Every field is validated and
    the errors are collected; an exception in one of them ends it.  Keys
    the model does not declare are ignored. *)
Definition CoffeeCreate_validate (body : gmap string pyval)
    : validation CoffeeCreate.t :=
  match required str_validator (body !! "name"),
        optional_str (body !! "description"),
        required float_validator (body !! "price") with
  | Valid name, Valid description, Valid price =>
      Valid {| CoffeeCreate.name := name;
               CoffeeCreate.description := description;
               CoffeeCreate.price := price |}
  | Crash, _, _ | _, Crash, _ | _, _, Crash => Crash
  | _, _, _ => Invalid
  end.

(** ** The application *)

(** A request whose body, where it has one, is a JSON object. *)
Inductive request : Type :=
| GET_coffees
| POST_coffees (body : gmap string pyval)
| GET_coffee (coffee_id : Z)
| PUT_coffee (coffee_id : Z) (body : gmap string pyval)
| DELETE_coffee (coffee_id : Z).

(** FastAPI validates the body before it calls the handler, and answers
    422 without calling it when the body does not validate. *)
Definition validated (release : pydantic) (body : gmap string pyval)
    (op : CoffeeCreate.t -> operation) (db : Database) : Database * response :=
  match CoffeeCreate_validate body with
  | Valid coffee_data => run release (op coffee_data) db
  | Invalid => (db, request_validation_error)
  | Crash => (db, internal_server_error)
  end.

Definition app (release : pydantic) (req : request) (db : Database)
    : Database * response :=
  match req with
  | GET_coffees => run release List_ db
  | POST_coffees body => validated release body Create db
  | GET_coffee coffee_id => run release (Get coffee_id) db
  | PUT_coffee coffee_id body => validated release body (Update coffee_id) db
  | DELETE_coffee coffee_id => run release (Delete coffee_id) db
  end.

(** The validated body of a request, where it has one. *)
Definition request_input (req : request) : option CoffeeCreate.t :=
  match req with
  | POST_coffees body | PUT_coffee _ body =>
      match CoffeeCreate_validate body with
      | Valid coffee_data => Some coffee_data
      | _ => None
      end
  | _ => None
  end.

(** The request carries no price that JSON cannot hold. *)
Definition finite_request (req : request) : bool :=
  match request_input req with
  | Some coffee_data => is_finite (CoffeeCreate.price coffee_data)
  | None => true
  end.

End Validation.

(** A run of operations, with the responses in order. *)
Fixpoint exec (release : pydantic) (ops : list operation) (db : Database)
    : Database * list response :=
  match ops with
  | [] => (db, [])
  | op :: ops =>
      let '(db1, r) := run release op db in
      let '(db2, rs) := exec release ops db1 in
      (db2, r :: rs)
  end.

Definition is_read (op : operation) : bool :=
  match op with
  | List_ | Get _ => true
  | _ => false
  end.

(** ** Sample data: the scenarios of the service's description *)

Definition price_4_5 : float := Eval vm_compute in float_of_dyadic 9 (-1).
Definition price_5_0 : float := Eval vm_compute in float_of_dyadic 5 0.
Definition infinity : float := S754_infinity false.

Definition latte_body : gmap string pyval :=
  {[ "name" := PStr "Latte"; "price" := PFloat price_4_5 ]}.

Definition latte : CoffeeCreate.t :=
  {| CoffeeCreate.name := "Latte"; CoffeeCreate.description := None;
     CoffeeCreate.price := price_4_5 |}.

Definition oat_latte_body : gmap string pyval :=
  {[ "name" := PStr "Latte"; "description" := PStr "oat milk";
     "price" := PFloat price_5_0 ]}.

Definition oat_latte : CoffeeCreate.t :=
  {| CoffeeCreate.name := "Latte"; CoffeeCreate.description := Some "oat milk";
     CoffeeCreate.price := price_5_0 |}.

Definition unnamed_body : gmap string pyval :=
  {[ "name" := PStr ""; "price" := PFloat price_4_5 ]}.

Definition unnamed : CoffeeCreate.t :=
  {| CoffeeCreate.name := ""; CoffeeCreate.description := None;
     CoffeeCreate.price := price_4_5 |}.

Definition no_price_body : gmap string pyval :=
  {[ "name" := PStr "Latte" ]}.

(** The name [a], NUL, [b]. *)
Definition nul_name : string := String "a" (String "000" (String "b" EmptyString)).

Definition nul_body : gmap string pyval :=
  {[ "name" := PStr nul_name; "price" := PFloat price_4_5 ]}.

Definition nul_coffee : CoffeeCreate.t :=
  {| CoffeeCreate.name := nul_name; CoffeeCreate.description := None;
     CoffeeCreate.price := price_4_5 |}.

(** A price of [1e400], which the JSON decoder reads as an infinity. *)
Definition dear_body : gmap string pyval :=
  {[ "name" := PStr "Latte"; "price" := PFloat infinity ]}.

Definition dear : CoffeeCreate.t :=
  {| CoffeeCreate.name := "Latte"; CoffeeCreate.description := None;
     CoffeeCreate.price := infinity |}.

Definition latte_json : CoffeeRead.json :=
  {| CoffeeRead.json_id := 1; CoffeeRead.json_name := "Latte";
     CoffeeRead.json_description := None;
     CoffeeRead.json_price := Some price_4_5 |}.

Definition oat_latte_json : CoffeeRead.json :=
  {| CoffeeRead.json_id := 1; CoffeeRead.json_name := "Latte";
     CoffeeRead.json_description := Some "oat milk";
     CoffeeRead.json_price := Some price_5_0 |}.

(** The store after a latte was created, after an oat latte was, and after
    a latte and then an oat latte were. *)
Definition db_latte : Database := (call (Create latte) init_db).1.
Definition db_oat_latte : Database := (call (Create oat_latte) init_db).1.
Definition db_two : Database := (call (Create oat_latte) db_latte).1.

(** ** Notions the properties are stated with *)

(** The row that holds the values of [data] under the primary key [ident]. *)
Definition row (ident : Z) (data : CoffeeCreate.t) : Coffee.t :=
  {| Coffee.id := ident;
     Coffee.name := CoffeeCreate.name data;
     Coffee.description := CoffeeCreate.description data;
     Coffee.price := CoffeeCreate.price data |}.

(** The JSON object of a row whose price is finite. *)
Definition json_of (c : Coffee.t) : CoffeeRead.json :=
  {| CoffeeRead.json_id := Coffee.id c;
     CoffeeRead.json_name := Coffee.name c;
     CoffeeRead.json_description := Coffee.description c;
     CoffeeRead.json_price := Some (Coffee.price c) |}.

(** What goes out for a row that can go out. *)
Definition shown (release : pydantic) (c : Coffee.t) : CoffeeRead.json :=
  default (json_of c) (serialize_response release c).

(** The text of [data] is text the store takes. *)
Definition storable_data (data : CoffeeCreate.t) : bool :=
  storable (CoffeeCreate.name data) (CoffeeCreate.description data).

(** [data] holds, by [==], what the row [c] holds: the unit of work sends
    no UPDATE. *)
Definition same_values (c : Coffee.t) (data : CoffeeCreate.t) : bool :=
  String.eqb (CoffeeCreate.name data) (Coffee.name c)
  && bool_decide (CoffeeCreate.description data = Coffee.description c)
  && float_eq (CoffeeCreate.price data) (Coffee.price c).

(** An update of the row [c] with [data] would send text with a NUL. *)
Definition refused (c : Coffee.t) (data : CoffeeCreate.t) : bool :=
  (negb (String.eqb (CoffeeCreate.name data) (Coffee.name c))
   && has_nul (CoffeeCreate.name data))
  || (negb (bool_decide (CoffeeCreate.description data = Coffee.description c))
      && match CoffeeCreate.description data with
         | Some s => has_nul s
         | None => false
         end).

(** The row [c] after an update with [data]: a price that is equal to the
    stored one by [==] is not sent, and the stored one stays. *)
Definition updated_row (c : Coffee.t) (data : CoffeeCreate.t) : Coffee.t :=
  {| Coffee.id := Coffee.id c;
     Coffee.name := CoffeeCreate.name data;
     Coffee.description := CoffeeCreate.description data;
     Coffee.price :=
       if float_eq (CoffeeCreate.price data) (Coffee.price c)
       then Coffee.price c else CoffeeCreate.price data |}.

(** The table after the UPDATE of the row [c]. *)
Definition moved_last (c : Coffee.t) (data : CoffeeCreate.t) (db : Database)
    : Database :=
  {| coffees :=
       List.filter (fun x => negb (Coffee.id x =? Coffee.id c)) (coffees db)
       ++ [updated_row c data];
     coffee_id_seq := coffee_id_seq db |}.

(** A create on [db] stores a row: the text is storable and the sequence
    value fits the column. *)
Definition create_stores (data : CoffeeCreate.t) (db : Database) : bool :=
  storable_data data
  && (coffee_id_seq db <=? int4_max)
  && (int4_min <=? coffee_id_seq db)
  && bool_decide (coffee_id_seq db ∉ ids db).

(** How an operation changes the column of primary keys, up to the order:
    a create that stores appends the sequence value, a delete removes its
    key, nothing else happens. *)
Definition ids_after (op : operation) (db : Database) : list Z :=
  match op with
  | Create data =>
      if create_stores data db then ids db ++ [coffee_id_seq db] else ids db
  | Delete k =>
      if in_int4 k then List.filter (fun i => negb (i =? k)) (ids db) else ids db
  | _ => ids db
  end.

(** A step of the service other than a create that hands out the id [k]. *)
Definition step_without_create_of (k : Z) (db db' : Database) : Prop :=
  exists op, (call op db).1 = db'
             /\ forall input, op = Create input -> coffee_id_seq db <> k.

(** [coffee_data.dict()]: the fields of the model under their names. *)
Definition CoffeeCreate_dict (coffee_data : CoffeeCreate.t) : gmap string pyval :=
  {[ "name" := PStr (CoffeeCreate.name coffee_data);
     "description" := match CoffeeCreate.description coffee_data with
                      | Some s => PStr s
                      | None => PNone
                      end;
     "price" := PFloat (CoffeeCreate.price coffee_data) ]}.

(** How many of the responses carry the status [code]. *)
Definition count_status (code : Z) (responses : list response) : nat :=
  length (List.filter (fun r => status_code r =? code) responses).

(** The operation is a create that takes a value from the sequence: one
    whose text the store takes. *)
Definition uses_sequence (op : operation) : bool :=
  match op with
  | Create data => storable_data data
  | _ => false
  end.

(** The operation sends a finite price, or none. *)
Definition finite_input (op : operation) : bool :=
  match op with
  | Create data | Update _ data => is_finite (CoffeeCreate.price data)
  | _ => true
  end.

(** * Properties *)

(** ** Rows under a primary key *)

Section Rows.

Implicit Types (db : Database) (c x : Coffee.t) (k j : Z) (l : list Coffee.t).

Lemma find_id_Some l k c :
  List.find (fun c => Coffee.id c =? k) l = Some c -> Coffee.id c = k /\ c ∈ l.
Proof.
  induction l as [|x l IH]; simpl; [discriminate|].
  destruct (Z.eqb_spec (Coffee.id x) k) as [Hx|Hx].
  - intros [= <-]. split; [done | left].
  - intros [? ?]%IH. split; [done | by right].
Qed.

Lemma find_id_None l k :
  List.find (fun c => Coffee.id c =? k) l = None <-> k ∉ map Coffee.id l.
Proof.
  induction l as [|x l IH]; simpl.
  - split; [intros _; apply not_elem_of_nil | done].
  - rewrite not_elem_of_cons.
    destruct (Z.eqb_spec (Coffee.id x) k) as [Hx|Hx].
    + split; [discriminate | intros [? _]; congruence].
    + rewrite IH. split; [intros ?; split; [congruence | done] | by intros [_ ?]].
Qed.

Lemma find_id_filter l k j :
  List.find (fun c => Coffee.id c =? k)
    (List.filter (fun c => negb (Coffee.id c =? j)) l)
  = if k =? j then None else List.find (fun c => Coffee.id c =? k) l.
Proof.
  induction l as [|x l IH]; simpl; [by destruct (k =? j)|].
  destruct (Z.eqb_spec (Coffee.id x) j) as [Hj|Hj]; simpl.
  - rewrite IH. destruct (Z.eqb_spec k j) as [->|Hk]; [done|].
    destruct (Z.eqb_spec (Coffee.id x) k); [congruence | done].
  - destruct (Z.eqb_spec (Coffee.id x) k) as [Hk|Hk].
    + destruct (Z.eqb_spec k j); [congruence | done].
    + apply IH.
Qed.

Lemma find_id_snoc l c k :
  List.find (fun c => Coffee.id c =? k) (l ++ [c])
  = match List.find (fun c => Coffee.id c =? k) l with
    | Some x => Some x
    | None => if Coffee.id c =? k then Some c else None
    end.
Proof.
  induction l as [|x l IH]; simpl; [done|].
  by destruct (Coffee.id x =? k).
Qed.

Lemma elem_of_ids l c : c ∈ l -> Coffee.id c ∈ map Coffee.id l.
Proof. intros H. by apply list_elem_of_In, List.in_map, list_elem_of_In. Qed.

(** Under a primary key, a row is found by its id. *)
Lemma find_id_elem_of l c :
  NoDup (map Coffee.id l) -> c ∈ l ->
  List.find (fun x => Coffee.id x =? Coffee.id c) l = Some c.
Proof.
  induction l as [|x l IH]; simpl.
  - intros _ []%elem_of_nil.
  - rewrite NoDup_cons. intros [Hx Hnd] [->|Hin]%elem_of_cons.
    + by rewrite Z.eqb_refl.
    + destruct (Z.eqb_spec (Coffee.id x) (Coffee.id c)) as [Heq|Hne]; [|by apply IH].
      destruct Hx. rewrite Heq. by apply elem_of_ids.
Qed.

Lemma filter_id_absent l k :
  k ∉ map Coffee.id l -> List.filter (fun c => negb (Coffee.id c =? k)) l = l.
Proof.
  induction l as [|x l IH]; simpl; [done|].
  rewrite not_elem_of_cons. intros [Hx Hl].
  destruct (Z.eqb_spec (Coffee.id x) k); [congruence|]. simpl. by rewrite IH.
Qed.

Lemma filter_id_Permutation l c :
  NoDup (map Coffee.id l) -> c ∈ l ->
  l ≡ₚ c :: List.filter (fun x => negb (Coffee.id x =? Coffee.id c)) l.
Proof.
  induction l as [|x l IH]; simpl.
  - intros _ []%elem_of_nil.
  - rewrite NoDup_cons. intros [Hx Hnd] [->|Hin]%elem_of_cons.
    + rewrite Z.eqb_refl; simpl. by rewrite filter_id_absent.
    + destruct (Z.eqb_spec (Coffee.id x) (Coffee.id c)) as [Heq|Hne]; simpl.
      * destruct Hx. rewrite Heq. by apply elem_of_ids.
      * etrans; [apply Permutation_skip, (IH Hnd Hin)|]. apply Permutation_swap.
Qed.

Lemma filter_filter_id l j k :
  List.filter (fun c => negb (Coffee.id c =? k))
    (List.filter (fun c => negb (Coffee.id c =? j)) l)
  = List.filter (fun c => negb (Coffee.id c =? j))
      (List.filter (fun c => negb (Coffee.id c =? k)) l).
Proof.
  induction l as [|x l IH]; simpl; [done|].
  destruct (Coffee.id x =? j) eqn:Hj, (Coffee.id x =? k) eqn:Hk; simpl;
    rewrite ?Hj, ?Hk; simpl; by rewrite IH.
Qed.

Lemma map_id_filter l k :
  map Coffee.id (List.filter (fun c => negb (Coffee.id c =? k)) l)
  = List.filter (fun i => negb (i =? k)) (map Coffee.id l).
Proof.
  induction l as [|x l IH]; simpl; [done|].
  destruct (Coffee.id x =? k); simpl; by rewrite IH.
Qed.

Lemma elem_of_filter_neq (l : list Z) k i :
  i ∈ List.filter (fun i => negb (i =? k)) l <-> i ∈ l /\ i <> k.
Proof.
  rewrite !list_elem_of_In, List.filter_In, negb_true_iff, Z.eqb_neq. done.
Qed.

Lemma filter_neq_absent (l : list Z) k :
  k ∉ l -> List.filter (fun i => negb (i =? k)) l = l.
Proof.
  induction l as [|x l IH]; simpl; [done|].
  rewrite not_elem_of_cons. intros [Hx Hl].
  destruct (Z.eqb_spec x k); [congruence|]. simpl. by rewrite IH.
Qed.

Lemma filter_neq_Permutation (l : list Z) k :
  NoDup l -> k ∈ l -> l ≡ₚ List.filter (fun i => negb (i =? k)) l ++ [k].
Proof.
  induction l as [|x l IH]; simpl.
  - intros _ []%elem_of_nil.
  - rewrite NoDup_cons. intros [Hx Hnd] [->|Hin]%elem_of_cons.
    + rewrite Z.eqb_refl; simpl. rewrite filter_neq_absent by done.
      apply Permutation_cons_append.
    + destruct (Z.eqb_spec x k) as [->|Hne]; [done|]. simpl.
      by apply Permutation_skip, IH.
Qed.

Lemma select_Some db k c :
  select_by_id db k = Some c -> Coffee.id c = k /\ c ∈ coffees db.
Proof. apply find_id_Some. Qed.

Lemma select_None db k : select_by_id db k = None <-> k ∉ ids db.
Proof. apply find_id_None. Qed.

Lemma select_is_Some db k : is_Some (select_by_id db k) <-> k ∈ ids db.
Proof.
  rewrite <- not_eq_None_Some, select_None.
  destruct (decide (k ∈ ids db)); naive_solver.
Qed.

Lemma select_elem_of db c :
  NoDup (ids db) -> c ∈ coffees db -> select_by_id db (Coffee.id c) = Some c.
Proof. apply find_id_elem_of. Qed.

End Rows.

(** ** The handlers, case by case *)

Section Handlers.

Implicit Types (db : Database) (c : Coffee.t) (k : Z) (data : CoffeeCreate.t).

Lemma db_get_in db k :
  in_int4 k = true -> db_get db k = Return (select_by_id db k).
Proof. intros H. unfold db_get. by rewrite H. Qed.

Lemma db_get_out db k : in_int4 k = false -> db_get db k = Raise DBAPIError.
Proof. intros H. unfold db_get. by rewrite H. Qed.

Lemma create_stores_spec data db :
  create_stores data db = true
  <-> storable_data data = true
      /\ in_int4 (coffee_id_seq db) = true
      /\ coffee_id_seq db ∉ ids db.
Proof.
  unfold create_stores, in_int4.
  rewrite !andb_true_iff, bool_decide_eq_true. tauto.
Qed.

Lemma add_coffee_stores data db :
  create_stores data db = true ->
  add_coffee data db
  = ({| coffees := coffees db ++ [row (coffee_id_seq db) data];
        coffee_id_seq := coffee_id_seq db + 1 |},
     Return (row (coffee_id_seq db) data)).
Proof.
  intros (Hs & Hin & Hfresh)%create_stores_spec.
  unfold add_coffee, db_insert. unfold storable_data in Hs. rewrite Hs; simpl.
  assert ((int8_max <? coffee_id_seq db) = false) as ->.
  { apply Z.ltb_ge. unfold in_int4 in Hin.
    apply andb_true_iff in Hin as [_ Hle%Z.leb_le].
    unfold int4_max in Hle. unfold int8_max. lia. }
  rewrite Hin; simpl.
  apply select_None in Hfresh. rewrite Hfresh.
  rewrite db_get_in by done. unfold select_by_id in *; simpl.
  rewrite find_id_snoc, Hfresh; simpl. by rewrite Z.eqb_refl.
Qed.

Lemma add_coffee_refused data db :
  storable_data data = false -> add_coffee data db = (db, Raise DBAPIError).
Proof.
  intros Hs. unfold add_coffee, db_insert.
  unfold storable_data in Hs. by rewrite Hs.
Qed.

(** A create that stores no row raises, leaves the rows, and uses up at
    most one sequence value. *)
Lemma add_coffee_not_stores data db :
  create_stores data db = false ->
  (add_coffee data db).2 = Raise DBAPIError
  /\ coffees (add_coffee data db).1 = coffees db
  /\ (coffee_id_seq (add_coffee data db).1 = coffee_id_seq db
      \/ coffee_id_seq (add_coffee data db).1 = coffee_id_seq db + 1).
Proof.
  intros Hno. unfold add_coffee, db_insert.
  destruct (storable _ _) eqn:Hs; simpl; [|auto].
  destruct (int8_max <? _) eqn:H8; simpl; [auto|].
  destruct (in_int4 _) eqn:H4; simpl; [|auto].
  destruct (select_by_id db _) eqn:Hsel; simpl; [auto|].
  apply select_None in Hsel.
  assert (create_stores data db = true) by (by apply create_stores_spec).
  congruence.
Qed.

Lemma get_coffee_out k db :
  in_int4 k = false -> get_coffee_by_id k db = Raise DBAPIError.
Proof. intros H. unfold get_coffee_by_id. by rewrite db_get_out. Qed.

Lemma get_coffee_missing k db :
  in_int4 k = true -> k ∉ ids db ->
  get_coffee_by_id k db = Raise (HTTPException 404 "Coffee not found").
Proof.
  intros H Hk%select_None. unfold get_coffee_by_id.
  by rewrite db_get_in, Hk.
Qed.

Lemma get_coffee_found k db c :
  in_int4 k = true -> select_by_id db k = Some c ->
  get_coffee_by_id k db = Return c.
Proof. intros H Hc. unfold get_coffee_by_id. by rewrite db_get_in, Hc. Qed.

Lemma update_coffee_out k data db :
  in_int4 k = false -> update_coffee k data db = (db, Raise DBAPIError).
Proof. intros H. unfold update_coffee. by rewrite db_get_out. Qed.

Lemma update_coffee_missing k data db :
  in_int4 k = true -> k ∉ ids db ->
  update_coffee k data db = (db, Raise (HTTPException 404 "Coffee not found")).
Proof.
  intros H Hk%select_None. unfold update_coffee.
  by rewrite db_get_in, Hk.
Qed.

(** With the values the row holds, [updated_row] is the row. *)
Lemma updated_row_same c data :
  same_values c data = true -> updated_row c data = c.
Proof.
  unfold same_values, updated_row.
  rewrite !andb_true_iff, bool_decide_eq_true, String.eqb_eq.
  intros [[Hn Hd] ->]. destruct c; simpl in *. by subst.
Qed.

Lemma select_moved_last c data db :
  select_by_id (moved_last c data db) (Coffee.id c) = Some (updated_row c data).
Proof.
  unfold select_by_id, moved_last; simpl.
  rewrite find_id_snoc, find_id_filter, Z.eqb_refl; simpl.
  by rewrite Z.eqb_refl.
Qed.

Lemma select_moved_last_ne c data db k :
  k <> Coffee.id c ->
  select_by_id (moved_last c data db) k = select_by_id db k.
Proof.
  intros Hk. unfold select_by_id, moved_last; simpl.
  rewrite find_id_snoc, find_id_filter.
  destruct (Z.eqb_spec k (Coffee.id c)) as [|_]; [done|].
  destruct (List.find _ (coffees db)); [done|]. simpl.
  destruct (Z.eqb_spec (Coffee.id c) k); [congruence | done].
Qed.

Lemma db_update_spec c data db :
  db_update c (CoffeeCreate.name data) (CoffeeCreate.description data)
            (CoffeeCreate.price data) db
  = if same_values c data then (db, Return tt)
    else if refused c data then (db, Raise DBAPIError)
    else (moved_last c data db, Return tt).
Proof.
  unfold db_update, same_values, refused, moved_last, updated_row.
  destruct (String.eqb _ _), (bool_decide _), (float_eq _ _); simpl; try done;
    repeat match goal with
           | |- context [if has_nul ?s then _ else _] => destruct (has_nul s)
           | |- context [match ?d with Some _ => _ | None => _ end] =>
               destruct d; simpl
           end; try done.
Qed.

Lemma update_coffee_found k data db c :
  in_int4 k = true -> select_by_id db k = Some c ->
  update_coffee k data db
  = if same_values c data then (db, Return c)
    else if refused c data then (db, Raise DBAPIError)
    else (moved_last c data db, Return (updated_row c data)).
Proof.
  intros Hin Hc. destruct (select_Some _ _ _ Hc) as [Hk _].
  unfold update_coffee. rewrite db_get_in, Hc, db_update_spec by done.
  destruct (same_values c data).
  - by rewrite Hk, db_get_in, Hc.
  - destruct (refused c data); [done|].
    rewrite db_get_in by (by rewrite Hk). by rewrite select_moved_last.
Qed.

Lemma delete_coffee_out k db :
  in_int4 k = false -> delete_coffee k db = (db, Raise DBAPIError).
Proof. intros H. unfold delete_coffee. by rewrite db_get_out. Qed.

Lemma delete_coffee_missing k db :
  in_int4 k = true -> k ∉ ids db ->
  delete_coffee k db = (db, Raise (HTTPException 404 "Coffee not found")).
Proof.
  intros H Hk%select_None. unfold delete_coffee.
  by rewrite db_get_in, Hk.
Qed.

Lemma delete_coffee_found k db :
  in_int4 k = true -> k ∈ ids db ->
  delete_coffee k db
  = ({| coffees := List.filter (fun c => negb (Coffee.id c =? k)) (coffees db);
        coffee_id_seq := coffee_id_seq db |},
     Return tt).
Proof.
  intros H [c Hc]%select_is_Some. unfold delete_coffee.
  rewrite db_get_in, Hc by done.
  destruct (select_Some _ _ _ Hc) as [<- _]. done.
Qed.

(** The state after a delete of a key in range, whether it is there or
    not. *)
Lemma delete_coffee_state k db :
  in_int4 k = true ->
  (delete_coffee k db).1
  = {| coffees := List.filter (fun c => negb (Coffee.id c =? k)) (coffees db);
       coffee_id_seq := coffee_id_seq db |}.
Proof.
  intros H. destruct (decide (k ∈ ids db)).
  - by rewrite delete_coffee_found.
  - rewrite delete_coffee_missing by done. simpl.
    rewrite filter_id_absent by assumption. by destruct db.
Qed.

(** The three shapes of the state after an update. *)
Lemma update_coffee_state k data db :
  (update_coffee k data db).1 = db
  \/ exists c, select_by_id db k = Some c
               /\ in_int4 k = true
               /\ same_values c data = false
               /\ refused c data = false
               /\ update_coffee k data db
                  = (moved_last c data db, Return (updated_row c data)).
Proof.
  destruct (in_int4 k) eqn:Hin; [|left; by rewrite update_coffee_out].
  destruct (select_by_id db k) as [c|] eqn:Hc.
  - rewrite (update_coffee_found _ _ _ _ Hin Hc).
    destruct (same_values c data) eqn:Hsame; [by left|].
    destruct (refused c data) eqn:Href; [by left|].
    right. by exists c.
  - left. apply select_None in Hc. by rewrite update_coffee_missing.
Qed.

Lemma ids_moved_last c data db :
  ids (moved_last c data db)
  = (List.filter (fun i => negb (i =? Coffee.id c)) (ids db) ++ [Coffee.id c])%list.
Proof. unfold ids, moved_last; simpl. by rewrite map_app, map_id_filter. Qed.

Lemma ids_call op db :
  NoDup (ids db) -> ids (call op db).1 ≡ₚ ids_after op db.
Proof.
  intros Hnd. destruct op as [|data|k|k data|k]; simpl; try done.
  - destruct (create_stores data db) eqn:Hst.
    + rewrite add_coffee_stores by done. unfold ids; simpl. by rewrite map_app.
    + destruct (add_coffee_not_stores _ _ Hst) as (_ & Hrows & _).
      unfold ids. by rewrite Hrows.
  - destruct (update_coffee_state k data db) as [->|(c & Hc & _ & _ & _ & ->)];
      [done|]. simpl. rewrite ids_moved_last.
    destruct (select_Some _ _ _ Hc) as [Hk Hin]. symmetry.
    apply filter_neq_Permutation; [done|]. by apply elem_of_ids.
  - destruct (in_int4 k) eqn:Hin.
    + rewrite delete_coffee_state by done. unfold ids; simpl.
      by rewrite map_id_filter.
    + by rewrite delete_coffee_out.
Qed.

Lemma seq_call op db :
  coffee_id_seq (call op db).1 = coffee_id_seq db
  \/ (exists data, op = Create data)
     /\ coffee_id_seq (call op db).1 = coffee_id_seq db + 1.
Proof.
  destruct op as [|data|k|k data|k]; simpl; auto.
  - destruct (create_stores data db) eqn:Hst.
    + rewrite add_coffee_stores by done. right. eauto.
    + destruct (add_coffee_not_stores _ _ Hst) as (_ & _ & [?|?]); eauto.
  - destruct (update_coffee_state k data db) as [->|(c & _ & _ & _ & _ & ->)];
      auto.
  - destruct (in_int4 k) eqn:Hin.
    + rewrite delete_coffee_state by done. auto.
    + rewrite delete_coffee_out by done. auto.
Qed.

Lemma seq_call_le op db : coffee_id_seq db <= coffee_id_seq (call op db).1.
Proof. destruct (seq_call op db) as [->|[_ ->]]; lia. Qed.

Lemma seq_steps db db' : steps db db' -> coffee_id_seq db <= coffee_id_seq db'.
Proof.
  induction 1 as [db|db db1 db2 [op <-] _ IH]; [lia|].
  pose proof (seq_call_le op db). lia.
Qed.

End Handlers.

(** ** Integrity of the store *)

Section Integrity.

Implicit Types (db : Database) (op : operation) (k : Z).

Lemma db_ok_init : db_ok init_db.
Proof. split; [apply NoDup_nil_2 | split; [apply Forall_nil_2 | done]]. Qed.

Lemma db_ok_fresh db : db_ok db -> coffee_id_seq db ∉ ids db.
Proof.
  intros (_ & Hlt & _) Hin. rewrite Forall_forall in Hlt.
  specialize (Hlt _ Hin). lia.
Qed.

Lemma db_ok_in_int4 db k : db_ok db -> k ∈ ids db -> in_int4 k = true.
Proof.
  intros (_ & Hlt & _) Hin. rewrite Forall_forall in Hlt.
  specialize (Hlt _ Hin). unfold in_int4, int4_min.
  apply andb_true_iff. split; apply Z.leb_le; lia.
Qed.

Lemma db_ok_call op db : db_ok db -> db_ok (call op db).1.
Proof.
  intros Hok. pose proof (db_ok_fresh _ Hok) as Hfresh.
  destruct Hok as (Hnd & Hlt & Hseq).
  pose proof (ids_call op db Hnd) as Hids.
  pose proof (seq_call_le op db) as Hle.
  assert (NoDup (ids_after op db)
          /\ Forall (fun i => 1 <= i < coffee_id_seq (call op db).1
                              /\ i <= int4_max) (ids_after op db)) as [Hnd' Hlt'].
  { assert (Forall (fun i => 1 <= i < coffee_id_seq (call op db).1
                             /\ i <= int4_max) (ids db)) as Hlt0.
    { eapply Forall_impl; [exact Hlt | simpl; intros; lia]. }
    destruct op as [|data|k|k data|k]; simpl; try done.
    - destruct (create_stores data db) eqn:Hst; [|done].
      pose proof Hst as (_ & Hin & _)%create_stores_spec.
      split.
      + apply NoDup_app. split; [done|]. split; [|apply NoDup_singleton].
        intros i Hi ->%list_elem_of_singleton. done.
      + apply Forall_app. split; [done|]. apply Forall_singleton.
        rewrite (add_coffee_stores _ _ Hst); simpl. unfold in_int4 in Hin.
        apply andb_true_iff in Hin as [_ ?%Z.leb_le]. lia.
    - destruct (in_int4 k); [|done]. split.
      + apply NoDup_ListNoDup, List.NoDup_filter, NoDup_ListNoDup, Hnd.
      + rewrite Forall_forall in Hlt0. apply Forall_forall.
        intros i [Hi _]%elem_of_filter_neq. by apply Hlt0. }
  split; [by rewrite Hids|]. split; [by rewrite Hids | lia].
Qed.

Lemma db_ok_steps db db' : db_ok db -> steps db db' -> db_ok db'.
Proof.
  intros Hok Hsteps. induction Hsteps as [db|db db1 db2 [op <-] _ IH]; [done|].
  apply IH, db_ok_call, Hok.
Qed.

Lemma reachable_ok db : reachable db -> db_ok db.
Proof. apply db_ok_steps, db_ok_init. Qed.

Lemma reachable_call op db : reachable db -> reachable (call op db).1.
Proof. intros H. eapply rtc_r; [exact H | by exists op]. Qed.

Lemma reachable_steps db db' : reachable db -> steps db db' -> reachable db'.
Proof. intros H1 H2. by eapply rtc_trans. Qed.

(** A key that is gone and below the sequence value stays gone. *)
Lemma gone_for_good db db' k :
  db_ok db -> k ∉ ids db -> k < coffee_id_seq db -> steps db db' ->
  k ∉ ids db'.
Proof.
  intros Hok Hk Hlt Hsteps.
  induction Hsteps as [db|db db1 db2 [op <-] _ IH]; [done|].
  apply IH.
  - by apply db_ok_call.
  - rewrite (ids_call op db) by apply Hok.
    destruct op as [|data|j|j data|j]; simpl; try done.
    + destruct (create_stores data db); [|done].
      rewrite elem_of_app, list_elem_of_singleton. intros [?|?]; [done | lia].
    + destruct (in_int4 j); [|done]. by intros [? _]%elem_of_filter_neq.
  - pose proof (seq_call_le op db). lia.
Qed.

End Integrity.

(** ** Prices, serialisation and responses *)

Section Responses.

Implicit Types (release : pydantic) (db : Database) (c : Coffee.t) (k : Z)
  (data : CoffeeCreate.t).

Lemma float_eq_refl (x : float) : is_finite x = true -> float_eq x x = true.
Proof.
  destruct x as [s|s| |s m e]; try done. intros _.
  unfold float_eq, SFeqb; simpl. rewrite Z.compare_refl.
  change (PosDef.Pos.compare_cont Eq m m) with (Pos.compare m m).
  rewrite Pos.compare_refl. by destruct s.
Qed.

(** Floats that are equal by [==] are the same float, or two zeros. *)
Lemma float_eq_eq (x y : float) :
  float_eq x y = true -> x = y \/ (is_zero x = true /\ is_zero y = true).
Proof.
  unfold float_eq, SFeqb.
  destruct x as [s1|s1| |s1 m1 e1], y as [s2|s2| |s2 m2 e2]; simpl;
    try (by destruct s1); try (by destruct s2); try (by right).
  - destruct s1, s2; try done; by left.
  - change (PosDef.Pos.compare_cont Eq m1 m2) with (Pos.compare m1 m2).
    destruct s1, s2; try done;
      destruct (Z.compare_spec e1 e2) as [->| |]; try done;
      destruct (Pos.compare_spec m1 m2) as [->| |]; try done; by left.
Qed.

Lemma float_eq_finite (x y : float) :
  float_eq x y = true -> is_finite x = true -> is_finite y = true.
Proof. intros [->|[_ Hy]]%float_eq_eq; [done|]. by destruct y. Qed.

Lemma serialize_finite release c :
  is_finite (Coffee.price c) = true ->
  serialize_response release c = Some (json_of c).
Proof. intros H. unfold serialize_response; simpl. by rewrite H. Qed.

(** What goes out is the row, but for a price that may be [null]. *)
Lemma serialize_Some release c item :
  serialize_response release c = Some item ->
  CoffeeRead.json_id item = Coffee.id c
  /\ CoffeeRead.json_name item = Coffee.name c
  /\ CoffeeRead.json_description item = Coffee.description c
  /\ (CoffeeRead.json_price item = Some (Coffee.price c)
      \/ CoffeeRead.json_price item = None).
Proof.
  unfold serialize_response; simpl.
  destruct (is_finite _); [intros [= <-]; simpl; auto|].
  destruct release; [done|]. intros [= <-]; simpl; auto.
Qed.

Lemma serialize_Pydantic2 c : is_Some (serialize_response Pydantic2 c).
Proof. unfold serialize_response; simpl. destruct (is_finite _); eauto. Qed.

Lemma serialize_None release c :
  serialize_response release c = None ->
  release = Pydantic1 /\ is_finite (Coffee.price c) = false.
Proof.
  unfold serialize_response; simpl.
  destruct (is_finite _); [done|]. by destruct release.
Qed.

Lemma updated_row_finite c data :
  is_finite (CoffeeCreate.price data) = true ->
  is_finite (Coffee.price (updated_row c data)) = true.
Proof.
  intros H. unfold updated_row; simpl.
  destruct (float_eq _ _) eqn:Heq; [|done]. by eapply float_eq_finite.
Qed.

Lemma storable_not_refused c data :
  storable_data data = true -> refused c data = false.
Proof.
  unfold storable_data, storable, refused.
  intros [Hn Hd]%andb_true_iff. apply negb_true_iff in Hn. rewrite Hn.
  rewrite andb_false_r; simpl.
  destruct (CoffeeCreate.description data) as [s|]; [|by rewrite andb_false_r].
  apply negb_true_iff in Hd. rewrite Hd. by rewrite andb_false_r.
Qed.

(** The status of a response with a row is the route's, or 500. *)
Lemma respond_item_status release status c :
  status_code (respond release status (Return (ACoffee c))) = status
  \/ respond release status (Return (ACoffee c)) = internal_server_error.
Proof. simpl. destruct (serialize_response release c); auto. Qed.

Lemma run_get_out release k db :
  in_int4 k = false -> run release (Get k) db = (db, internal_server_error).
Proof. intros H. unfold run; simpl. by rewrite get_coffee_out. Qed.

Lemma run_update_out release k data db :
  in_int4 k = false -> run release (Update k data) db = (db, internal_server_error).
Proof. intros H. unfold run; simpl. by rewrite update_coffee_out. Qed.

Lemma run_delete_out release k db :
  in_int4 k = false -> run release (Delete k) db = (db, internal_server_error).
Proof. intros H. unfold run; simpl. by rewrite delete_coffee_out. Qed.

Lemma run_get_found release k db c :
  in_int4 k = true -> select_by_id db k = Some c ->
  run release (Get k) db = (db, respond release 200 (Return (ACoffee c))).
Proof. intros H Hc. unfold run; simpl. by rewrite (get_coffee_found _ _ c). Qed.

Lemma run_delete_found release k db :
  in_int4 k = true -> k ∈ ids db ->
  run release (Delete k) db
  = ({| coffees := List.filter (fun c => negb (Coffee.id c =? k)) (coffees db);
        coffee_id_seq := coffee_id_seq db |},
     {| status_code := 204; body := NoBody |}).
Proof. intros H Hk. unfold run; simpl. by rewrite delete_coffee_found. Qed.

Lemma run_create_stores release data db :
  create_stores data db = true ->
  run release (Create data) db
  = ({| coffees := coffees db ++ [row (coffee_id_seq db) data];
        coffee_id_seq := coffee_id_seq db + 1 |},
     respond release 201 (Return (ACoffee (row (coffee_id_seq db) data)))).
Proof. intros H. unfold run; simpl. by rewrite add_coffee_stores. Qed.

Lemma run_create_not_stores release data db :
  create_stores data db = false ->
  (run release (Create data) db).2 = internal_server_error
  /\ coffees (run release (Create data) db).1 = coffees db.
Proof.
  intros (Hr & Hrows & _)%add_coffee_not_stores. unfold run; simpl.
  by rewrite Hr.
Qed.

(** The three by-id handlers on a key in range that is not there. *)
Lemma absent_responses release db k data :
  in_int4 k = true -> k ∉ ids db ->
  run release (Get k) db = (db, not_found)
  /\ run release (Update k data) db = (db, not_found)
  /\ run release (Delete k) db = (db, not_found).
Proof.
  intros H Hk. unfold run; simpl.
  by rewrite get_coffee_missing, update_coffee_missing, delete_coffee_missing.
Qed.

(** The by-id handlers on a key that is there never answer 404. *)
Lemma present_responses release db k data :
  k ∈ ids db ->
  (run release (Get k) db).2 <> not_found
  /\ (run release (Update k data) db).2 <> not_found
  /\ (run release (Delete k) db).2 <> not_found.
Proof.
  intros Hk. destruct (in_int4 k) eqn:Hin.
  - pose proof Hk as [c Hc]%select_is_Some.
    rewrite (run_get_found _ _ _ _ Hin Hc), run_delete_found by done.
    split; [|split; [|done]].
    + simpl. by destruct (serialize_response release c).
    + unfold run; simpl. rewrite (update_coffee_found _ _ _ _ Hin Hc).
      destruct (same_values c data); simpl;
        [by destruct (serialize_response release c)|].
      destruct (refused c data); simpl; [done|].
      by destruct (serialize_response release _).
  - by rewrite run_get_out, run_update_out, run_delete_out.
Qed.

Lemma elem_of_ids_call op db i :
  i ∈ ids (call op db).1 ->
  i ∈ ids db \/ (exists data, op = Create data) /\ i = coffee_id_seq db.
Proof.
  destruct op as [|data|k|k data|k]; simpl; auto.
  - destruct (create_stores data db) eqn:Hst.
    + rewrite add_coffee_stores by done. unfold ids; simpl.
      rewrite map_app, elem_of_app; simpl. rewrite list_elem_of_singleton.
      intros [?|?]; eauto.
    + destruct (add_coffee_not_stores _ _ Hst) as (_ & Hrows & _).
      unfold ids. rewrite Hrows. auto.
  - destruct (update_coffee_state k data db) as [->|(c & Hc & _ & _ & _ & ->)];
      [auto|]. simpl. rewrite ids_moved_last, elem_of_app, list_elem_of_singleton.
    destruct (select_Some _ _ _ Hc) as [Hk Hin].
    intros [[? _]%elem_of_filter_neq| ->]; [auto|]. left. by apply elem_of_ids.
  - destruct (in_int4 k) eqn:Hin.
    + rewrite delete_coffee_state by done. unfold ids; simpl.
      rewrite map_id_filter. intros [? _]%elem_of_filter_neq. auto.
    + rewrite delete_coffee_out by done. auto.
Qed.

(** A key that no create hands out again does not come back. *)
Lemma deleted_id_never_returns k db db' :
  k ∉ ids db -> rtc (step_without_create_of k) db db' -> k ∉ ids db'.
Proof.
  intros Hk Hsteps.
  induction Hsteps as [db|db db1 db2 (op & <- & Hop) _ IH]; [done|].
  apply IH. intros [?|[[data ->] ->]]%elem_of_ids_call; [done|].
  by apply (Hop data).
Qed.

Lemma successful_delete release db k :
  status_code (run release (Delete k) db).2 = 204 ->
  in_int4 k = true /\ k ∈ ids db /\ k ∉ ids (run release (Delete k) db).1.
Proof.
  intros Hok. destruct (in_int4 k) eqn:Hin;
    [|by rewrite run_delete_out in Hok].
  destruct (decide (k ∈ ids db)) as [Hk|Hk].
  - split; [done|]. split; [done|]. rewrite run_delete_found by done.
    unfold ids; simpl. rewrite map_id_filter. by intros [_ ?]%elem_of_filter_neq.
  - by rewrite (proj2 (proj2 (absent_responses release db k latte Hin Hk))) in Hok.
Qed.

Lemma exec_cons release op ops db :
  exec release (op :: ops) db
  = ((exec release ops (run release op db).1).1,
     (run release op db).2 :: (exec release ops (run release op db).1).2).
Proof.
  cbn [exec]. destruct (run release op db) as [db1 r]; cbn [fst snd].
  by destruct (exec release ops db1).
Qed.

Lemma exec_reads release reads db :
  Forall (fun op => is_read op = true) reads -> (exec release reads db).1 = db.
Proof.
  induction 1 as [|op reads Hop _ IH]; [done|].
  rewrite exec_cons; cbn [fst]. by destruct op.
Qed.

Lemma exec_steps release ops db : steps db (exec release ops db).1.
Proof.
  revert db. induction ops as [|op ops IH]; intros db; [apply rtc_refl|].
  rewrite exec_cons; simpl. eapply rtc_l; [by exists op | apply IH].
Qed.

End Responses.

(** * The claims *)

Section Claims.

Implicit Types (release : pydantic) (db : Database) (k : Z)
  (input : CoffeeCreate.t).

(** C4: after a successful delete of an id, and as long as no create hands
    that id out again, get, update (with any input) and delete on that id
    all answer NotFound and leave the store as it is. *)
Theorem delete_is_terminal release db k input db' :
  status_code (run release (Delete k) db).2 = 204 ->
  rtc (step_without_create_of k) (run release (Delete k) db).1 db' ->
  run release (Get k) db' = (db', not_found)
  /\ run release (Update k input) db' = (db', not_found)
  /\ run release (Delete k) db' = (db', not_found).
Proof.
  intros (Hin & _ & Hgone)%successful_delete Hsteps.
  apply absent_responses; [done|]. by eapply deleted_id_never_returns.
Qed.

(** C5, as the code has it: for an id within the range of the id column,
    get, update and delete answer NotFound, a 404 with the reason
    "Coffee not found", exactly when the id is not in the store, and then
    leave the store as it is. *)
Theorem not_found_iff_absent release db k input :
  in_int4 k = true ->
  not_found = {| status_code := 404; body := Detail "Coffee not found" |}
  /\ ((run release (Get k) db).2 = not_found <-> k ∉ ids db)
  /\ ((run release (Update k input) db).2 = not_found <-> k ∉ ids db)
  /\ ((run release (Delete k) db).2 = not_found <-> k ∉ ids db)
  /\ (k ∉ ids db ->
      run release (Get k) db = (db, not_found)
      /\ run release (Update k input) db = (db, not_found)
      /\ run release (Delete k) db = (db, not_found)).
Proof.
  intros Hin. split; [done|].
  assert (forall r : Database * response,
            (k ∉ ids db -> r = (db, not_found)) ->
            (k ∈ ids db -> r.2 <> not_found) ->
            r.2 = not_found <-> k ∉ ids db) as Hiff.
  { intros r Habsent Hpresent. split.
    - intros Hr Hk. by apply Hpresent.
    - intros Hk. by rewrite Habsent. }
  split; [|split; [|split]].
  - apply Hiff; intros Hk;
      [by apply absent_responses | by apply (present_responses _ _ _ input)].
  - apply Hiff; intros Hk;
      [by apply absent_responses | by apply present_responses].
  - apply Hiff; intros Hk;
      [by apply (absent_responses _ _ _ input) | by apply (present_responses _ _ _ input)].
  - intros Hk. by apply absent_responses.
Qed.

(** C7: a get and a list change nothing in the store, and a get or a list
    that is repeated, with any reads in between, answers the same. *)
Theorem reads_are_idempotent release db k reads :
  Forall (fun op => is_read op = true) reads ->
  (run release (Get k) db).1 = db
  /\ (run release List_ db).1 = db
  /\ (exec release reads db).1 = db
  /\ (run release (Get k) (exec release reads (run release (Get k) db).1).1).2
     = (run release (Get k) db).2
  /\ (run release List_ (exec release reads (run release List_ db).1).1).2
     = (run release List_ db).2.
Proof.
  intros Hreads. do 2 (split; [done|]).
  split; [by apply exec_reads|]. simpl. by rewrite !(exec_reads _ _ _ Hreads).
Qed.

(** An update that the store takes: what it returns and what the store
    then holds under the key. *)
Lemma update_coffee_accepted k input db (c : Coffee.t) :
  in_int4 k = true -> select_by_id db k = Some c -> refused c input = false ->
  (update_coffee k input db).2 = Return (updated_row c input)
  /\ select_by_id (update_coffee k input db).1 k = Some (updated_row c input).
Proof.
  intros Hin Hc Href. rewrite (update_coffee_found _ _ _ _ Hin Hc), Href.
  destruct (same_values c input) eqn:Hsame; simpl.
  - by rewrite updated_row_same.
  - destruct (select_Some _ _ _ Hc) as [<- _]. by rewrite select_moved_last.
Qed.

(** C3, as the code has it: for an existing id and an input whose text has
    no NUL and whose price is finite, the update answers 200 and a get
    then answers the same: the id, the input's name and description, and
    a price equal to the input's (the same float, but that a zero may keep
    the sign of the stored zero). *)
Theorem update_then_get release db k input :
  reachable db ->
  k ∈ ids db ->
  storable_data input = true ->
  is_finite (CoffeeCreate.price input) = true ->
  exists view,
    (run release (Update k input) db).2
      = {| status_code := 200; body := CoffeeItem view |}
    /\ (run release (Get k) (run release (Update k input) db).1).2
       = {| status_code := 200; body := CoffeeItem view |}
    /\ CoffeeRead.json_id view = k
    /\ CoffeeRead.json_name view = CoffeeCreate.name input
    /\ CoffeeRead.json_description view = CoffeeCreate.description input
    /\ exists p,
         CoffeeRead.json_price view = Some p
         /\ float_eq (CoffeeCreate.price input) p = true
         /\ (is_zero (CoffeeCreate.price input) = false ->
             p = CoffeeCreate.price input).
Proof.
  intros Hok%reachable_ok Hk Hstor Hfin.
  pose proof (db_ok_in_int4 _ _ Hok Hk) as Hin.
  pose proof Hk as [c Hc]%select_is_Some.
  destruct (update_coffee_accepted k input db c Hin Hc
              (storable_not_refused _ _ Hstor)) as [Hres Hsel].
  pose proof (updated_row_finite c input Hfin) as Hfin'.
  exists (json_of (updated_row c input)). split; [|split].
  - unfold run; simpl. rewrite Hres; simpl. by rewrite serialize_finite.
  - rewrite (run_get_found _ _ _ _ Hin Hsel); simpl.
    by rewrite serialize_finite.
  - destruct (select_Some _ _ _ Hc) as [Hid _]. do 3 (split; [done|]).
    eexists. split; [reflexivity|]. simpl.
    destruct (float_eq (CoffeeCreate.price input) (Coffee.price c)) eqn:Heq.
    + split; [done|]. intros Hz.
      destruct (float_eq_eq _ _ Heq) as [->|[Hz' _]]; [done | congruence].
    + split; [by apply float_eq_refl | done].
Qed.

(** A create that answers 201 has stored a row under the sequence value. *)
Lemma created_id release input db view :
  (run release (Create input) db).2
    = {| status_code := 201; body := CoffeeItem view |} ->
  create_stores input db = true /\ CoffeeRead.json_id view = coffee_id_seq db.
Proof.
  destruct (create_stores input db) eqn:Hst.
  - rewrite run_create_stores by done. simpl.
    destruct (serialize_response release _) as [item|] eqn:Hitem; [|done].
    intros [= <-]. split; [done|]. by apply serialize_Some in Hitem as [? _].
  - by destruct (run_create_not_stores release _ _ Hst) as [-> _].
Qed.

(** Every primary key a reachable state holds is below the sequence value
    of every later state. *)
Lemma ids_below_later_seq db db' k :
  reachable db -> steps db db' -> k ∈ ids db -> k < coffee_id_seq db'.
Proof.
  intros (_ & Hlt & _)%reachable_ok Hle%seq_steps Hin.
  rewrite Forall_forall in Hlt. specialize (Hlt _ Hin). lia.
Qed.

(** C6, as the code has it: in every state the service can be in, the ids
    are pairwise distinct, before and after a create.  A create stores at
    most one row, under the sequence value, which no row carries and no
    row of an earlier state carried; a create that answers 201 answers
    with that id, and every later create that answers 201 answers with a
    larger one. *)
Theorem create_assigns_fresh_id release db input :
  reachable db ->
  let new_id := coffee_id_seq db in
  let after := (run release (Create input) db).1 in
  NoDup (ids db)
  /\ NoDup (ids after)
  /\ (new_id ∉ ids db)
  /\ (forall db0, reachable db0 -> steps db0 db -> new_id ∉ ids db0)
  /\ (ids after = ids db \/ ids after = (ids db ++ [new_id])%list)
  /\ (forall view,
        (run release (Create input) db).2
          = {| status_code := 201; body := CoffeeItem view |} ->
        CoffeeRead.json_id view = new_id
        /\ ids after = (ids db ++ [new_id])%list
        /\ select_by_id after new_id = Some (row new_id input))
  /\ (forall db2 input2 view view2,
        (run release (Create input) db).2
          = {| status_code := 201; body := CoffeeItem view |} ->
        steps after db2 ->
        (run release (Create input2) db2).2
          = {| status_code := 201; body := CoffeeItem view2 |} ->
        CoffeeRead.json_id view < CoffeeRead.json_id view2).
Proof.
  intros Hreach new_id after.
  pose proof (reachable_ok _ Hreach) as Hok.
  pose proof (reachable_ok _ (reachable_call (Create input) _ Hreach)) as Hok'.
  split; [apply Hok|]. split; [apply Hok'|].
  split; [by apply db_ok_fresh|]. split.
  { intros db0 Hreach0 Hsteps Hin.
    pose proof (ids_below_later_seq _ _ _ Hreach0 Hsteps Hin). subst new_id. lia. }
  assert (create_stores input db = true ->
          ids after = (ids db ++ [new_id])%list
          /\ select_by_id after new_id = Some (row new_id input)
          /\ coffee_id_seq after = new_id + 1) as Hstored.
  { intros Hst. subst after new_id. rewrite run_create_stores by done.
    unfold ids, select_by_id; simpl. rewrite map_app, find_id_snoc; simpl.
    apply create_stores_spec in Hst as (_ & _ & Hfresh%select_None).
    unfold select_by_id in Hfresh. by rewrite Hfresh, Z.eqb_refl. }
  split; [|split].
  - destruct (create_stores input db) eqn:Hst.
    + right. by apply Hstored.
    + left. destruct (run_create_not_stores release _ _ Hst) as [_ Hrows].
      subst after. unfold ids. by rewrite Hrows.
  - intros view [Hst Hid]%created_id.
    split; [done|]. by destruct (Hstored Hst) as (? & ? & _).
  - intros db2 input2 view view2 [Hst ->]%created_id Hsteps [_ ->]%created_id.
    destruct (Hstored Hst) as (_ & _ & Hseq).
    apply seq_steps in Hsteps. subst new_id. lia.
Qed.

(** C9: an update of an existing id leaves the ids of the store, their
    number and the sequence as they are; the record is still found under
    its id, and every other record is found as before: no record comes,
    none goes, none but the one updated changes.  No operation changes an
    id: after any operation the ids are those before, but for the one a
    create adds or a delete removes. *)
Theorem update_frame release db k input :
  reachable db ->
  k ∈ ids db ->
  let db' := (run release (Update k input) db).1 in
  ids db' ≡ₚ ids db
  /\ length (coffees db') = length (coffees db)
  /\ coffee_id_seq db' = coffee_id_seq db
  /\ (exists c c', select_by_id db k = Some c
                   /\ select_by_id db' k = Some c'
                   /\ Coffee.id c = k /\ Coffee.id c' = k)
  /\ (forall j, j <> k -> select_by_id db' j = select_by_id db j)
  /\ (forall c, Coffee.id c <> k -> (c ∈ coffees db' <-> c ∈ coffees db))
  /\ (forall op db0,
        reachable db0 -> ids (run release op db0).1 ≡ₚ ids_after op db0).
Proof.
  intros Hok%reachable_ok Hk db'.
  pose proof Hk as [c Hc]%select_is_Some.
  destruct (select_Some _ _ _ Hc) as [Hid Hin].
  assert (ids db' ≡ₚ ids db) as Hids.
  { apply (ids_call (Update k input)), Hok. }
  split; [done|]. split.
  { apply Permutation_length in Hids. unfold ids in Hids.
    by rewrite !length_map in Hids. }
  assert (db' = db \/ db' = moved_last c input db) as [->| ->].
  { subst db'. unfold run; simpl.
    destruct (update_coffee_state k input db)
      as [->|(c' & Hc' & _ & _ & _ & ->)]; [by left|].
    right. simpl. congruence. }
  - split; [done|]. split; [by exists c, c|]. split; [done|].
    split; [done|]. intros op db0 Hok0%reachable_ok. apply ids_call, Hok0.
  - split; [done|]. split.
    { exists c, (updated_row c input). split; [done|].
      split; [|done]. rewrite <- Hid. apply select_moved_last. }
    split. { intros j Hj. apply select_moved_last_ne. congruence. }
    split.
    { intros x Hx. unfold moved_last; simpl.
      rewrite elem_of_app, list_elem_of_singleton.
      rewrite !list_elem_of_In, List.filter_In, <- !list_elem_of_In.
      rewrite negb_true_iff, Z.eqb_neq. split.
      - intros [[? _]| ->]; [done|]. simpl in Hx. congruence.
      - intros ?. left. split; [done | congruence]. }
    intros op db0 Hok0%reachable_ok. apply ids_call, Hok0.
Qed.

End Claims.

(** ** Claims about requests with a body to validate *)

Section RequestClaims.

Variable coerce_str : pyval -> validation string.
Variable coerce_float : pyval -> validation float.

Local Abbreviation validate := (CoffeeCreate_validate coerce_str coerce_float).
Local Abbreviation serve := (app coerce_str coerce_float).
Local Abbreviation as_str := (str_validator coerce_str).
Local Abbreviation as_float := (float_validator coerce_float).
Local Abbreviation finite := (finite_request coerce_str coerce_float).

Implicit Types (release : pydantic) (db : Database) (k : Z)
  (body : gmap string pyval) (input : CoffeeCreate.t).

Lemma validate_Valid body input :
  validate body = Valid input
  <-> required as_str (body !! "name") = Valid (CoffeeCreate.name input)
      /\ optional_str coerce_str (body !! "description")
         = Valid (CoffeeCreate.description input)
      /\ required as_float (body !! "price") = Valid (CoffeeCreate.price input).
Proof.
  unfold CoffeeCreate_validate.
  destruct (required as_str _), (optional_str _ _), (required as_float _);
    split; try done; try (by intros (? & ? & ?)).
  - intros [= <-]. done.
  - intros ([= ->] & [= ->] & [= ->]). by destruct input.
Qed.

Lemma validate_Crash body :
  validate body = Crash
  <-> required as_str (body !! "name") = Crash
      \/ optional_str coerce_str (body !! "description") = Crash
      \/ required as_float (body !! "price") = Crash.
Proof.
  unfold CoffeeCreate_validate.
  destruct (required as_str _), (optional_str _ _), (required as_float _);
    split; try done; auto; by intros [?|[?|?]].
Qed.

Lemma validate_Invalid body :
  validate body = Invalid
  <-> validate body <> Crash
      /\ (required as_str (body !! "name") = Invalid
          \/ optional_str coerce_str (body !! "description") = Invalid
          \/ required as_float (body !! "price") = Invalid).
Proof.
  unfold CoffeeCreate_validate.
  destruct (required as_str _), (optional_str _ _), (required as_float _);
    split; try done; auto; try (by intros [? [?|[?|?]]]); by intros [? _].
Qed.

Lemma required_Invalid {A : Type} (validator : pyval -> validation A)
    (o : option pyval) :
  required validator o = Invalid
  <-> o = None \/ exists v, o = Some v /\ validator v = Invalid.
Proof.
  destruct o as [v|]; simpl.
  - split; [intros ?; right; by exists v | by intros [?|(? & [= <-] & ?)]].
  - split; [by left | done].
Qed.

Lemma optional_str_Invalid (o : option pyval) :
  optional_str coerce_str o = Invalid
  <-> exists v, o = Some v /\ v <> PNone /\ as_str v = Invalid.
Proof.
  destruct o as [v|]; simpl; [|split; [done | by intros (? & ? & _)]].
  split.
  - intros H. exists v. split; [done|].
    destruct v; simpl in *; try done;
      split; try done; by destruct (coerce_str _).
  - intros (? & [= <-] & Hv & Hs). destruct v; try done; simpl in *;
      by rewrite ?Hs.
Qed.

Lemma optional_str_omitted (o : option pyval) (d : option string) :
  o = None -> optional_str coerce_str o = Valid d -> d = None.
Proof. intros -> [= <-]. done. Qed.

Lemma run_status release (op : operation) db :
  status_code (run release op db).2 = success_status op
  \/ status_code (run release op db).2 = 404
  \/ status_code (run release op db).2 = 500.
Proof.
  assert (forall status c,
            status_code (respond release status (Return (ACoffee c))) = status
            \/ status_code (respond release status (Return (ACoffee c))) = 500)
    as Hitem.
  { intros status c. simpl. destruct (serialize_response release c); auto. }
  destruct op as [|data|k|k data|k].
  - unfold run; simpl. destruct (mapM _ _); auto.
  - destruct (create_stores data db) eqn:Hst.
    + rewrite run_create_stores by done.
      destruct (Hitem 201 (row (coffee_id_seq db) data)); auto.
    + destruct (run_create_not_stores release _ _ Hst) as [-> _]. auto.
  - destruct (in_int4 k) eqn:Hin; [|rewrite run_get_out by done; auto].
    destruct (select_by_id db k) as [c|] eqn:Hc.
    + rewrite (run_get_found _ _ _ _ Hin Hc). destruct (Hitem 200 c); auto.
    + apply select_None in Hc.
      destruct (absent_responses release db k latte Hin Hc) as (-> & _). auto.
  - destruct (in_int4 k) eqn:Hin; [|rewrite run_update_out by done; auto].
    destruct (select_by_id db k) as [c|] eqn:Hc.
    + unfold run; cbn [call fst snd]. rewrite (update_coffee_found _ _ _ _ Hin Hc).
      destruct (same_values c data); cbn [fst snd returning success_status];
        [destruct (Hitem 200 c); auto|].
      destruct (refused c data); cbn [fst snd returning]; [auto|].
      destruct (Hitem 200 (updated_row c data)); auto.
    + apply select_None in Hc.
      destruct (absent_responses release db k data Hin Hc) as (_ & -> & _). auto.
  - destruct (in_int4 k) eqn:Hin; [|rewrite run_delete_out by done; auto].
    destruct (decide (k ∈ ids db)) as [Hk|Hk].
    + rewrite run_delete_found by done. auto.
    + destruct (absent_responses release db k latte Hin Hk) as (_ & _ & ->). auto.
Qed.

Lemma run_not_422 release (op : operation) db :
  status_code (run release op db).2 <> 422.
Proof.
  destruct (run_status release op db) as [->|[->| ->]]; [by destruct op|done..].
Qed.

(** A failing operation: unless the answer is 500 the store is as before,
    and unless a price that JSON cannot hold was to go out on pydantic 1
    the rows are. *)
Lemma run_failure release (op : operation) db :
  is_failure (run release op db).2 = true ->
  (status_code (run release op db).2 <> 500 -> (run release op db).1 = db)
  /\ (release = Pydantic2 \/ finite_input op = true ->
      coffees (run release op db).1 = coffees db).
Proof.
  assert (forall status c,
            status < 400 ->
            is_failure (respond release status (Return (ACoffee c))) = true ->
            respond release status (Return (ACoffee c)) = internal_server_error
            /\ release = Pydantic1 /\ is_finite (Coffee.price c) = false)
    as Hitem.
  { intros status c Hs. simpl.
    destruct (serialize_response release c) eqn:Hser.
    - unfold is_failure; simpl. intros ?%Z.leb_le. lia.
    - intros _. split; [done|]. by apply serialize_None. }
  destruct op as [|data|k|k data|k].
  - done.
  - destruct (create_stores data db) eqn:Hst.
    + rewrite run_create_stores by done. cbn [fst snd].
      intros (-> & -> & Hinf)%Hitem; [|done]. split; [done|].
      intros [?|Hfin]; [done|]. simpl in Hfin, Hinf. congruence.
    + destruct (run_create_not_stores release _ _ Hst) as [-> ->]. done.
  - done.
  - unfold run; cbn [call fst snd success_status].
    destruct (update_coffee_state k data db)
      as [Hsame|(c & _ & _ & _ & _ & ->)].
    + rewrite Hsame. done.
    + cbn [fst snd returning].
      intros (-> & -> & Hinf)%Hitem; [|done]. split; [done|].
      intros [?|Hfin]; [done|]. simpl in Hfin.
      by rewrite updated_row_finite in Hinf.
  - destruct (in_int4 k) eqn:Hin; [|by rewrite run_delete_out].
    destruct (decide (k ∈ ids db)) as [Hk|Hk].
    + by rewrite run_delete_found.
    + by destruct (absent_responses release db k latte Hin Hk) as (_ & _ & ->).
Qed.

Lemma serve_validated release body (op : CoffeeCreate.t -> operation) db :
  validated coerce_str coerce_float release body op db
  = match validate body with
    | Valid coffee_data => run release (op coffee_data) db
    | Invalid => (db, request_validation_error)
    | Crash => (db, internal_server_error)
    end.
Proof. done. Qed.

Lemma validated_422 release body (op : CoffeeCreate.t -> operation) db :
  status_code (validated coerce_str coerce_float release body op db).2 = 422
  <-> validate body = Invalid.
Proof.
  rewrite serve_validated. destruct (validate body) as [data| |]; simpl.
  - split; [|done]. intros H. by apply run_not_422 in H.
  - done.
  - done.
Qed.

(** C1, as the code has it: validation fails exactly when no conversion
    raises and [name] is missing or fails as text, or [description] is
    there, is not null and fails as text, or [price] is missing or fails
    as a number.  As text, every string passes, the empty one too, and
    null, a list and an object fail.  As a number, every float and every
    integer up to 2^53 pass, and null, a list, an object and ASCII text
    without a digit and without an n fail.  A create or update answers 422
    exactly when validation fails, and then leaves the store alone. *)
Theorem validation_fails_iff body :
  (validate body = Invalid <->
     validate body <> Crash
     /\ ((body !! "name" = None
          \/ exists v, body !! "name" = Some v /\ as_str v = Invalid)
         \/ (exists v, body !! "description" = Some v /\ v <> PNone
                       /\ as_str v = Invalid)
         \/ (body !! "price" = None
             \/ exists v, body !! "price" = Some v /\ as_float v = Invalid)))
  /\ ((forall s, as_str (PStr s) = Valid s)
      /\ as_str PNone = Invalid
      /\ (forall items, as_str (PList items) = Invalid)
      /\ (forall items, as_str (PDict items) = Invalid))
  /\ ((forall x, as_float (PFloat x) = Valid x)
      /\ (forall n, exact_int n = true ->
                    as_float (PInt n) = Valid (float_of_dyadic n 0))
      /\ as_float PNone = Invalid
      /\ (forall items, as_float (PList items) = Invalid)
      /\ (forall items, as_float (PDict items) = Invalid)
      /\ (forall s, no_number s = true -> as_float (PStr s) = Invalid))
  /\ (forall release db,
        status_code (serve release (POST_coffees body) db).2 = 422
        <-> validate body = Invalid)
  /\ (forall release db k,
        status_code (serve release (PUT_coffee k body) db).2 = 422
        <-> validate body = Invalid)
  /\ (forall release db k,
        validate body = Invalid ->
        serve release (POST_coffees body) db = (db, request_validation_error)
        /\ serve release (PUT_coffee k body) db = (db, request_validation_error)).
Proof.
  split.
  { rewrite validate_Invalid, !required_Invalid, optional_str_Invalid. done. }
  split; [done|]. split.
  { repeat split; try done; intros x Hx; simpl; by rewrite Hx. }
  split; [|split].
  - intros release db. apply validated_422.
  - intros release db k. apply validated_422.
  - intros release db k Hv. simpl. by rewrite !serve_validated, Hv.
Qed.

(** C2, as the code has it: in every state the service can be in whose
    sequence value fits the id column, a create with a valid body whose
    text has no NUL and whose price is finite answers 201 with the id and
    the input's name, description and price, and a get on that id answers
    200 with the same; the description is null when the body has none. *)
Theorem create_then_get release db body input :
  reachable db ->
  coffee_id_seq db <= int4_max ->
  validate body = Valid input ->
  storable_data input = true ->
  is_finite (CoffeeCreate.price input) = true ->
  let view := json_of (row (coffee_id_seq db) input) in
  (serve release (POST_coffees body) db).2
    = {| status_code := 201; body := CoffeeItem view |}
  /\ (serve release (GET_coffee (CoffeeRead.json_id view))
        (serve release (POST_coffees body) db).1).2
     = {| status_code := 200; body := CoffeeItem view |}
  /\ CoffeeRead.json_name view = CoffeeCreate.name input
  /\ CoffeeRead.json_description view = CoffeeCreate.description input
  /\ CoffeeRead.json_price view = Some (CoffeeCreate.price input)
  /\ (body !! "description" = None -> CoffeeRead.json_description view = None).
Proof.
  intros Hok%reachable_ok Hseq Hv Hstor Hfin view.
  assert (create_stores input db = true) as Hst.
  { apply create_stores_spec. split; [done|].
    split; [|by apply db_ok_fresh].
    destruct Hok as (_ & _ & H1). unfold in_int4, int4_min.
    apply andb_true_iff. split; apply Z.leb_le; lia. }
  assert (in_int4 (coffee_id_seq db) = true) as Hin
    by (by apply create_stores_spec in Hst as (_ & ? & _)).
  cbn [app]. rewrite serve_validated, Hv, run_create_stores by done.
  cbn [fst snd]. split; [|split].
  - unfold respond. by rewrite serialize_finite.
  - rewrite (run_get_found _ _ _ (row (coffee_id_seq db) input)); [|done|].
    + unfold respond. by rewrite serialize_finite.
    + unfold select_by_id; simpl. rewrite find_id_snoc.
      apply create_stores_spec in Hst as (_ & _ & Hfresh%select_None).
      unfold select_by_id in Hfresh. by rewrite Hfresh, Z.eqb_refl.
  - do 3 (split; [done|]). intros Hd. simpl.
    apply validate_Valid in Hv as (_ & Hdesc & _).
    by apply (optional_str_omitted _ _ Hd).
Qed.

(** C8, as the code has it: a request that fails with another status than
    500 leaves the store as it was; a request that fails at all leaves the
    records and the list as they were, unless the application runs on
    pydantic 1 and the request carries a price that is not finite: only
    then can a request answer 500 with its write committed.  A body
    without a price changes nothing, and is answered 422 unless a
    conversion raises. *)
Theorem failures_leave_store_unchanged release (req : request) db :
  is_failure (serve release req db).2 = true ->
  (status_code (serve release req db).2 <> 500 -> (serve release req db).1 = db)
  /\ (release = Pydantic2 \/ finite req = true ->
      coffees (serve release req db).1 = coffees db
      /\ (serve release GET_coffees (serve release req db).1).2
         = (serve release GET_coffees db).2)
  /\ (coffees (serve release req db).1 <> coffees db ->
      release = Pydantic1
      /\ status_code (serve release req db).2 = 500
      /\ finite req = false)
  /\ (forall body k,
        body !! "price" = None ->
        (serve release (POST_coffees body) db).1 = db
        /\ (serve release (PUT_coffee k body) db).1 = db
        /\ (validate body <> Crash ->
            serve release (POST_coffees body) db = (db, request_validation_error)
            /\ serve release (PUT_coffee k body) db
               = (db, request_validation_error))).
Proof.
  intros Hfail.
  assert ((status_code (serve release req db).2 <> 500 ->
           (serve release req db).1 = db)
          /\ (release = Pydantic2 \/ finite req = true ->
              coffees (serve release req db).1 = coffees db)) as [H500 Hrows].
  { assert (forall body (op : CoffeeCreate.t -> operation),
              (forall data, finite_input (op data)
                            = is_finite (CoffeeCreate.price data)) ->
              is_failure (validated coerce_str coerce_float release body op db).2
              = true ->
              (status_code (validated coerce_str coerce_float release body op db).2
               <> 500 ->
               (validated coerce_str coerce_float release body op db).1 = db)
              /\ (release = Pydantic2
                  \/ match validate body with
                     | Valid data => is_finite (CoffeeCreate.price data)
                     | _ => true
                     end = true ->
                  coffees (validated coerce_str coerce_float release body op db).1
                  = coffees db)) as Hbody.
    { intros body op Hop. rewrite serve_validated.
      destruct (validate body) as [data| |]; [|done..].
      intros [H1 H2]%run_failure. split; [done|]. rewrite Hop in H2. done. }
    destruct req as [|body|k|k body|k]; cbn [app] in *.
    - by apply run_failure in Hfail as [? ?].
    - apply Hbody in Hfail; [|done]. unfold finite_request, request_input.
      destruct (validate body); done.
    - by apply run_failure in Hfail as [? ?].
    - apply Hbody in Hfail; [|done]. unfold finite_request, request_input.
      destruct (validate body); done.
    - apply run_failure in Hfail as [? H2]. split; [done|].
      intros _. apply H2. by right. }
  split; [done|]. split; [|split].
  - intros Hcase. split; [by apply Hrows|].
    cbn [app]. unfold run; simpl. by rewrite (Hrows Hcase).
  - intros Hne.
    assert (status_code (serve release req db).2 = 500) as Hstatus.
    { destruct (decide (status_code (serve release req db).2 = 500)); [done|].
      destruct Hne. by rewrite H500. }
    destruct release, (finite req) eqn:Hfin; try done;
      destruct Hne; apply Hrows; auto.
  - intros body k Hprice. cbn [app]. rewrite !serve_validated.
    destruct (validate body) as [data| |] eqn:Hv; [|done..].
    apply validate_Valid in Hv as (_ & _ & Hv). by rewrite Hprice in Hv.
Qed.

(** C10: an update that answers 200, of a record that has a description,
    with a body that has none, stores the record without a description and
    answers with a null description. *)
Theorem update_without_description_erases release db k body input c d :
  select_by_id db k = Some c ->
  Coffee.description c = Some d ->
  body !! "description" = None ->
  validate body = Valid input ->
  status_code (serve release (PUT_coffee k body) db).2 = 200 ->
  CoffeeCreate.description input = None
  /\ (exists view,
        (serve release (PUT_coffee k body) db).2
          = {| status_code := 200; body := CoffeeItem view |}
        /\ CoffeeRead.json_description view = None)
  /\ (exists c',
        select_by_id (serve release (PUT_coffee k body) db).1 k = Some c'
        /\ Coffee.description c' = None).
Proof.
  intros Hc Hdesc Hd Hv. cbn [app]. rewrite serve_validated, Hv.
  assert (CoffeeCreate.description input = None) as Hnone.
  { apply validate_Valid in Hv as (_ & Ho & _).
    by apply (optional_str_omitted _ _ Hd). }
  intros H200. split; [done|].
  destruct (in_int4 k) eqn:Hin; [|by rewrite run_update_out in H200].
  assert (same_values c input = false) as Hsame.
  { unfold same_values. rewrite Hnone, Hdesc.
    rewrite bool_decide_eq_false_2 by done. by rewrite andb_false_r. }
  revert H200. unfold run; cbn [call fst snd success_status].
  rewrite (update_coffee_found _ _ _ _ Hin Hc), Hsame.
  destruct (refused c input); cbn [fst snd returning]; [done|].
  unfold respond.
  destruct (serialize_response release _) as [view|] eqn:Hview; [|done].
  intros _. split.
  - exists view. split; [done|].
    apply serialize_Some in Hview as (_ & _ & -> & _). done.
  - exists (updated_row c input). split; [|done].
    destruct (select_Some _ _ _ Hc) as [<- _]. apply select_moved_last.
Qed.

End RequestClaims.

(** * Further properties of the handlers *)

(** ** The list and the records *)

Section Records.

Implicit Types (release : pydantic) (db : Database) (k j : Z)
  (input : CoffeeCreate.t) (c : Coffee.t).

Lemma mapM_shown release (l : list Coffee.t) :
  (forall c, c ∈ l -> is_Some (serialize_response release c)) ->
  mapM (serialize_response release) l = Some (map (shown release) l).
Proof.
  induction l as [|c l IH]; intros Hall; [done|].
  destruct (Hall c) as [item Hitem]; [left|]. cbn.
  rewrite Hitem, IH by (intros; apply Hall; by right). cbn. unfold shown.
  by rewrite Hitem.
Qed.

(** A list that answers 200 shows every row. *)
Lemma list_items release db items :
  (run release List_ db).2 = {| status_code := 200; body := CoffeeList items |} ->
  (forall c, c ∈ coffees db -> serialize_response release c = Some (shown release c))
  /\ items = map (shown release) (coffees db).
Proof.
  unfold run; simpl.
  destruct (mapM _ _) as [items'|] eqn:Hitems; [|done]. intros [= <-].
  assert (forall c, c ∈ coffees db -> is_Some (serialize_response release c))
    as Hall.
  { intros c Hc. pose proof (mapM_is_Some_1 _ _ (mk_is_Some _ _ Hitems)) as H.
    rewrite Forall_forall in H. by apply H. }
  split.
  - intros c [item Hitem]%Hall. unfold shown. by rewrite Hitem.
  - rewrite (mapM_shown _ _ Hall) in Hitems. congruence.
Qed.

Lemma list_shown release (l : list Coffee.t) (s : Z) :
  (forall c, c ∈ l -> is_Some (serialize_response release c)) ->
  (run release List_ {| coffees := l; coffee_id_seq := s |}).2
  = {| status_code := 200; body := CoffeeList (map (shown release) l) |}.
Proof. intros Hall. unfold run; simpl. by rewrite mapM_shown. Qed.

(** X1: in every state the service can be in in which the list answers
    200, the list and the by-id lookup agree: a get of [k] answers 200 with
    a view exactly when that view is an item of the list and carries the
    id [k]. *)
Theorem list_agrees_with_get release db items :
  reachable db ->
  (run release List_ db).2 = {| status_code := 200; body := CoffeeList items |} ->
  forall k view,
    (run release (Get k) db).2 = {| status_code := 200; body := CoffeeItem view |}
    <-> view ∈ items /\ CoffeeRead.json_id view = k.
Proof.
  intros Hok%reachable_ok [Hshown ->]%list_items k view. split.
  - destruct (in_int4 k) eqn:Hin; [|by rewrite run_get_out].
    destruct (select_by_id db k) as [c|] eqn:Hc.
    + rewrite (run_get_found _ _ _ _ Hin Hc).
      destruct (select_Some _ _ _ Hc) as [Hid Hmem]. unfold respond.
      rewrite (Hshown _ Hmem). intros [= <-]. split.
      * by apply list_elem_of_In, List.in_map, list_elem_of_In.
      * by destruct (serialize_Some _ _ _ (Hshown _ Hmem)) as [-> _].
    + apply select_None in Hc.
      by destruct (absent_responses release db k latte Hin Hc) as (-> & _).
  - intros [Hview <-].
    apply list_elem_of_In, List.in_map_iff in Hview as (c & <- & Hmem).
    apply list_elem_of_In in Hmem.
    destruct (serialize_Some _ _ _ (Hshown _ Hmem)) as [-> _].
    rewrite (run_get_found _ _ _ c).
    + unfold respond. by rewrite (Hshown _ Hmem).
    + apply (db_ok_in_int4 db); [done|]. by apply elem_of_ids.
    + apply select_elem_of; [apply Hok | done].
Qed.

(** X2: in every state the service can be in in which the list answers
    200, a create that answers 201 adds exactly one item to the list, the
    view it answers with, and the answer of a get on any other id is as
    before. *)
Theorem create_adds_one_record release db input view items :
  reachable db ->
  (run release (Create input) db).2
    = {| status_code := 201; body := CoffeeItem view |} ->
  (run release List_ db).2 = {| status_code := 200; body := CoffeeList items |} ->
  exists items',
    (run release List_ (run release (Create input) db).1).2
      = {| status_code := 200; body := CoffeeList items' |}
    /\ items' ≡ₚ view :: items
    /\ forall j, j <> CoffeeRead.json_id view ->
                 (run release (Get j) (run release (Create input) db).1).2
                 = (run release (Get j) db).2.
Proof.
  intros Hok%reachable_ok H201 [Hshown ->]%list_items.
  pose proof H201 as [Hst ->]%created_id.
  revert H201. rewrite run_create_stores by done. cbn [fst snd]. unfold respond.
  destruct (serialize_response release _) as [item|] eqn:Hitem; [|done].
  intros [= ->].
  exists (map (shown release) (coffees db ++ [row (coffee_id_seq db) input])).
  split; [|split].
  - apply list_shown. intros c [Hc| ->%list_elem_of_singleton]%elem_of_app.
    + rewrite (Hshown _ Hc). eauto.
    + eauto.
  - rewrite map_app; simpl. unfold shown at 2. rewrite Hitem; simpl.
    symmetry. apply Permutation_cons_append.
  - intros j Hj. unfold run; simpl. unfold get_coffee_by_id, db_get.
    destruct (in_int4 j); [|done]. unfold select_by_id; simpl.
    rewrite find_id_snoc; simpl.
    destruct (List.find _ (coffees db)); [done|].
    by destruct (Z.eqb_spec (coffee_id_seq db) j).
Qed.

(** X3: in every state the service can be in in which the list answers
    200, a delete that answers 204 removes exactly one item from the list,
    the one a get on that id answered with; the sequence is not touched
    and the answer of a get on any other id is as before. *)
Theorem delete_removes_one_record release db k items :
  reachable db ->
  status_code (run release (Delete k) db).2 = 204 ->
  (run release List_ db).2 = {| status_code := 200; body := CoffeeList items |} ->
  exists view items',
    (run release (Get k) db).2 = {| status_code := 200; body := CoffeeItem view |}
    /\ (run release List_ (run release (Delete k) db).1).2
       = {| status_code := 200; body := CoffeeList items' |}
    /\ items ≡ₚ view :: items'
    /\ coffee_id_seq (run release (Delete k) db).1 = coffee_id_seq db
    /\ forall j, j <> k ->
                 (run release (Get j) (run release (Delete k) db).1).2
                 = (run release (Get j) db).2.
Proof.
  intros Hok%reachable_ok (Hin & Hk & _)%successful_delete
         [Hshown ->]%list_items.
  pose proof Hk as [c Hc]%select_is_Some.
  destruct (select_Some _ _ _ Hc) as [Hid Hmem].
  rewrite run_delete_found by done. cbn [fst snd].
  exists (shown release c),
    (map (shown release)
         (List.filter (fun x => negb (Coffee.id x =? k)) (coffees db))).
  split; [|split; [|split; [|split; [done|]]]].
  - rewrite (run_get_found _ _ _ _ Hin Hc). unfold respond.
    by rewrite (Hshown _ Hmem).
  - apply list_shown. intros x [Hx _]%list_elem_of_In%List.filter_In.
    rewrite (Hshown x) by (by apply list_elem_of_In). eauto.
  - rewrite <- Hid. change (?x :: map ?f ?l) with (map f (c :: l)).
    apply Permutation_map, filter_id_Permutation; [apply Hok | done].
  - intros j Hj. unfold run; simpl. unfold get_coffee_by_id, db_get.
    destruct (in_int4 j); [|done]. unfold select_by_id; simpl.
    rewrite find_id_filter. by destruct (Z.eqb_spec j k).
Qed.

(** X5: in every state the service can be in, an update that sends a
    record's own name, description and finite price changes nothing in
    the store and answers 200 with the record as it is. *)
Theorem update_with_current_values_changes_nothing release db k c input :
  reachable db ->
  select_by_id db k = Some c ->
  CoffeeCreate.name input = Coffee.name c ->
  CoffeeCreate.description input = Coffee.description c ->
  CoffeeCreate.price input = Coffee.price c ->
  is_finite (Coffee.price c) = true ->
  run release (Update k input) db
  = (db, {| status_code := 200; body := CoffeeItem (json_of c) |}).
Proof.
  intros Hok%reachable_ok Hc Hname Hdesc Hprice Hfin.
  assert (in_int4 k = true) as Hin.
  { apply (db_ok_in_int4 db); [done|]. apply select_is_Some. eauto. }
  assert (same_values c input = true) as Hsame.
  { unfold same_values. rewrite Hname, Hdesc, Hprice.
    rewrite String.eqb_refl, bool_decide_eq_true_2 by done.
    by rewrite float_eq_refl. }
  unfold run; cbn [call fst snd success_status].
  rewrite (update_coffee_found _ _ _ _ Hin Hc), Hsame.
  cbn [fst snd returning]. unfold respond. by rewrite serialize_finite.
Qed.

(** In a sound store whose sequence value fits the id column, a create
    with storable text stores a row. *)
Lemma db_ok_create_stores db input :
  db_ok db -> coffee_id_seq db <= int4_max -> storable_data input = true ->
  create_stores input db = true.
Proof.
  intros Hok Hseq Hstor. apply create_stores_spec. split; [done|].
  split; [|by apply db_ok_fresh].
  destruct Hok as (_ & _ & H1). unfold in_int4, int4_min.
  apply andb_true_iff. split; apply Z.leb_le; lia.
Qed.

(** X7: in every state the service can be in whose sequence value fits the
    id column, deleting the record that a create with storable text has
    just made answers 204 and gives back the table as it was before the
    create, but not the id: the sequence stays advanced. *)
Theorem create_then_delete_restores_rows release db input :
  reachable db ->
  coffee_id_seq db <= int4_max ->
  storable_data input = true ->
  run release (Delete (coffee_id_seq db)) (run release (Create input) db).1
  = ({| coffees := coffees db; coffee_id_seq := coffee_id_seq db + 1 |},
     {| status_code := 204; body := NoBody |}).
Proof.
  intros Hok%reachable_ok Hseq Hstor.
  pose proof (db_ok_create_stores _ _ Hok Hseq Hstor) as Hst.
  pose proof Hst as (_ & Hin & Hfresh)%create_stores_spec.
  rewrite run_create_stores by done. cbn [fst].
  rewrite run_delete_found; [|done|]; simpl.
  - f_equal. f_equal. rewrite List.filter_app; simpl.
    rewrite Z.eqb_refl; simpl. rewrite filter_id_absent by done.
    apply app_nil_r.
  - unfold ids; simpl. rewrite map_app, elem_of_app; simpl.
    right. apply list_elem_of_here.
Qed.

(** X15: a delete after an update of the same id is the delete alone: the
    same state and the same answer, whatever the update wrote and whatever
    it answered. *)
Theorem delete_after_update_is_delete release db k input :
  run release (Delete k) (run release (Update k input) db).1
  = run release (Delete k) db.
Proof.
  destruct (in_int4 k) eqn:Hin.
  - unfold run at 2; cbn [call fst snd].
    destruct (update_coffee_state k input db)
      as [->|(c & Hc & _ & _ & _ & ->)]; [done|]. cbn [fst].
    destruct (select_Some _ _ _ Hc) as [Hid Hmem].
    rewrite !run_delete_found; try done.
    + f_equal. f_equal. unfold moved_last; simpl.
      rewrite List.filter_app; simpl. rewrite Hid, Z.eqb_refl; simpl.
      rewrite app_nil_r.
      rewrite (filter_id_absent (List.filter _ _)); [done|].
      rewrite map_id_filter. by intros [_ ?]%elem_of_filter_neq.
    + apply select_is_Some. eauto.
    + rewrite ids_moved_last, elem_of_app, list_elem_of_singleton. by right.
  - rewrite (run_update_out _ _ _ _ Hin). done.
Qed.

End Records.

(** ** Runs of operations *)

Section Runs.

Implicit Types (release : pydantic) (db : Database) (k : Z)
  (input : CoffeeCreate.t) (op : operation) (ops : list operation).

Lemma count_status_cons code (r : response) rs :
  count_status code (r :: rs)
  = ((if (status_code r =? code)%Z then 1 else 0) + count_status code rs)%nat.
Proof. unfold count_status; simpl. by destruct (status_code r =? code). Qed.

(** One operation on a sound store: a 201 is one row more, a 204 one row
    less, anything else leaves the number of rows; but for a price that
    cannot go out on pydantic 1. *)
Lemma run_row_count release op db :
  db_ok db ->
  release = Pydantic2 \/ finite_input op = true ->
  (length (coffees (run release op db).1)
     + (if (status_code (run release op db).2 =? 204)%Z then 1 else 0)
   = length (coffees db)
     + (if (status_code (run release op db).2 =? 201)%Z then 1 else 0))%nat.
Proof.
  intros Hok Hcase.
  assert (forall op' : operation,
            success_status op' = 200 ->
            length (coffees (run release op' db).1) = length (coffees db) ->
            (length (coffees (run release op' db).1)
               + (if (status_code (run release op' db).2 =? 204)%Z then 1 else 0)
             = length (coffees db)
               + (if (status_code (run release op' db).2 =? 201)%Z
                  then 1 else 0))%nat) as Hother.
  { intros op' Hs ->.
    destruct (run_status release op' db) as [->|[->| ->]]; by rewrite ?Hs. }
  destruct op as [|data|k|k data|k]; try (by apply Hother).
  - destruct (create_stores data db) eqn:Hst.
    + rewrite run_create_stores by done. cbn [fst snd]. unfold respond.
      assert (is_Some (serialize_response release (row (coffee_id_seq db) data)))
        as [item ->].
      { destruct Hcase as [->|Hfin]; [apply serialize_Pydantic2|].
        rewrite serialize_finite by done. eauto. }
      simpl. rewrite length_app; simpl. lia.
    + destruct (run_create_not_stores release _ _ Hst) as [-> ->]. simpl. lia.
  - apply Hother; [done|].
    pose proof (ids_call (Update k data) db (proj1 Hok)) as Hids.
    change (ids_after (Update k data) db) with (ids db) in Hids.
    apply Permutation_length in Hids. unfold ids in Hids.
    rewrite !length_map in Hids. exact Hids.
  - destruct (in_int4 k) eqn:Hin; [|by rewrite run_delete_out].
    destruct (decide (k ∈ ids db)) as [Hk|Hk].
    + rewrite run_delete_found by done; simpl.
      apply select_is_Some in Hk as [c Hc].
      destruct (select_Some _ _ _ Hc) as [<- Hmem]. destruct Hok as [Hnd _].
      rewrite (Permutation_length (filter_id_Permutation _ _ Hnd Hmem)).
      simpl. lia.
    + by destruct (absent_responses release db k latte Hin Hk) as (_ & _ & ->).
Qed.

Lemma exec_row_count release ops db :
  db_ok db ->
  release = Pydantic2 \/ Forall (fun op => finite_input op = true) ops ->
  (length (coffees (exec release ops db).1)
     + count_status 204 (exec release ops db).2
   = length (coffees db) + count_status 201 (exec release ops db).2)%nat.
Proof.
  revert db. induction ops as [|op ops IH]; intros db Hok Hcase; [done|].
  rewrite exec_cons; cbn [fst snd]. rewrite !count_status_cons.
  assert (release = Pydantic2 \/ finite_input op = true) as Hop.
  { destruct Hcase as [?|[? _]%Forall_cons]; auto. }
  assert (release = Pydantic2
          \/ Forall (fun op => finite_input op = true) ops) as Hops.
  { destruct Hcase as [?|[_ ?]%Forall_cons]; auto. }
  pose proof (run_row_count release op db Hok Hop).
  pose proof (IH (run release op db).1 (db_ok_call op db Hok) Hops). lia.
Qed.

(** X9: along every run of operations from a state the service can be in,
    on pydantic 2 or with finite prices only, the number of stored records
    is the number before the run plus the number of 201 answers minus the
    number of 204 answers. *)
Theorem record_count release ops db :
  reachable db ->
  release = Pydantic2 \/ Forall (fun op => finite_input op = true) ops ->
  (length (coffees (exec release ops db).1)
     + count_status 204 (exec release ops db).2
   = length (coffees db) + count_status 201 (exec release ops db).2)%nat.
Proof. intros Hok%reachable_ok. by apply exec_row_count. Qed.

(** A create with storable text takes a value from a sequence that has
    one. *)
Lemma seq_add_coffee input db :
  storable_data input = true -> coffee_id_seq db <= int8_max ->
  coffee_id_seq (add_coffee input db).1 = coffee_id_seq db + 1.
Proof.
  intros Hstor Hseq. unfold add_coffee, db_insert.
  unfold storable_data in Hstor. rewrite Hstor; simpl.
  assert ((int8_max <? coffee_id_seq db) = false) as -> by (apply Z.ltb_ge; lia).
  destruct (in_int4 _); simpl; [|done].
  destruct (select_by_id db _); simpl; [done|].
  by destruct (db_get _ _) as [[?|]|].
Qed.

Lemma seq_exec release ops db :
  coffee_id_seq db + Z.of_nat (length (List.filter uses_sequence ops))
    <= int8_max + 1 ->
  coffee_id_seq (exec release ops db).1
  = coffee_id_seq db + Z.of_nat (length (List.filter uses_sequence ops)).
Proof.
  revert db. induction ops as [|op ops IH]; intros db; [simpl; lia|].
  rewrite exec_cons; cbn [fst snd List.filter].
  destruct (uses_sequence op) eqn:Hop.
  - destruct op as [|data| | |]; try done. simpl in Hop.
    cbn [length]. intros Hle. rewrite IH.
    + unfold run; simpl. rewrite seq_add_coffee by (done || lia). lia.
    + unfold run; simpl. rewrite seq_add_coffee by (done || lia). lia.
  - assert (coffee_id_seq (run release op db).1 = coffee_id_seq db) as Hsame.
    { destruct (seq_call op db) as [?|[[data ->] _]]; [done|].
      unfold run; simpl. simpl in Hop. by rewrite add_coffee_refused. }
    intros Hle. rewrite IH; rewrite Hsame; lia.
Qed.

(** X10: after any run of operations on the fresh schema, the sequence
    value is one more than the number of creates with storable text in the
    run, as long as that fits the id column; every stored id lies between
    1 and that number; and the next create with storable text and a finite
    price answers 201 with exactly that id. *)
Theorem nth_create_gets_id_n release ops input :
  let n := 1 + Z.of_nat (length (List.filter uses_sequence ops)) in
  let db := (exec release ops init_db).1 in
  n <= int4_max ->
  coffee_id_seq db = n
  /\ Forall (fun i => 1 <= i < n) (ids db)
  /\ (storable_data input = true ->
      is_finite (CoffeeCreate.price input) = true ->
      (run release (Create input) db).2
      = {| status_code := 201; body := CoffeeItem (json_of (row n input)) |}).
Proof.
  intros n db Hn.
  assert (reachable db) as Hreach by apply exec_steps.
  assert (coffee_id_seq db = n) as Hseq.
  { apply seq_exec. simpl. unfold int4_max in Hn. unfold int8_max.
    fold n. lia. }
  pose proof (reachable_ok _ Hreach) as Hok.
  split; [done|]. split.
  - destruct Hok as (_ & Hlt & _). rewrite <- Hseq.
    eapply Forall_impl; [exact Hlt | simpl; intros; lia].
  - intros Hstor Hfin.
    rewrite run_create_stores
      by (apply db_ok_create_stores; [done | lia | done]).
    cbn [snd]. unfold respond. rewrite serialize_finite by done.
    by rewrite Hseq.
Qed.

Lemma delete_all_rows release (l : list Coffee.t) (s : Z) :
  NoDup (map Coffee.id l) ->
  Forall (fun i => in_int4 i = true) (map Coffee.id l) ->
  exec release (map Delete (map Coffee.id l)) {| coffees := l; coffee_id_seq := s |}
  = ({| coffees := []; coffee_id_seq := s |},
     map (fun _ => {| status_code := 204; body := NoBody |}) (map Coffee.id l)).
Proof.
  induction l as [|x l IH]; [done|].
  cbn [map]. rewrite NoDup_cons, Forall_cons. intros [Hx Hnd] [Hin Hall].
  rewrite exec_cons.
  rewrite run_delete_found by (done || unfold ids; simpl; apply list_elem_of_here).
  cbn [fst snd coffees coffee_id_seq List.filter].
  rewrite Z.eqb_refl; cbn [negb]. rewrite filter_id_absent by done.
  by rewrite (IH Hnd Hall).
Qed.

(** X14: in every state the service can be in, deleting every listed id,
    one after the other, answers 204 each time and leaves an empty table;
    the sequence keeps its value. *)
Theorem deleting_every_id_empties_the_store release db :
  reachable db ->
  exec release (map Delete (ids db)) db
  = ({| coffees := []; coffee_id_seq := coffee_id_seq db |},
     map (fun _ => {| status_code := 204; body := NoBody |}) (ids db)).
Proof.
  intros Hok%reachable_ok.
  assert (Forall (fun i => in_int4 i = true) (ids db)) as Hall.
  { apply Forall_forall. intros i Hi. by apply (db_ok_in_int4 db). }
  destruct Hok as [Hnd _]. destruct db as [l s]. by apply delete_all_rows.
Qed.

End Runs.

(** ** Request bodies *)

Section Bodies.

Variable coerce_str : pyval -> validation string.
Variable coerce_float : pyval -> validation float.

Local Abbreviation validate := (CoffeeCreate_validate coerce_str coerce_float).
Local Abbreviation serve := (app coerce_str coerce_float).

Implicit Types (release : pydantic) (db : Database) (k : Z)
  (body : gmap string pyval).

(** X11: keys of the body that [CoffeeCreate] does not declare are ignored:
    a body with such a key validates to the same model, and a create or an
    update with it does what it does without it.  A client cannot choose an
    id by sending one. *)
Theorem undeclared_fields_are_ignored release body (key : string) (v : pyval) db k :
  key <> "name" -> key <> "description" -> key <> "price" ->
  validate (<[key := v]> body) = validate body
  /\ serve release (POST_coffees (<[key := v]> body)) db
     = serve release (POST_coffees body) db
  /\ serve release (PUT_coffee k (<[key := v]> body)) db
     = serve release (PUT_coffee k body) db.
Proof.
  intros Hname Hdesc Hprice.
  assert (validate (<[key := v]> body) = validate body) as Hsame.
  { unfold CoffeeCreate_validate. by rewrite !lookup_insert_ne. }
  split; [done|]. split; cbn [app]; unfold validated; by rewrite Hsame.
Qed.

(** X12: a [description] that is sent as null is a [description] that is
    not sent: both bodies validate to the same model, and a create or an
    update does the same with either. *)
Theorem null_description_is_no_description release body (db : Database) k :
  validate (<["description" := PNone]> body)
  = validate (delete "description" body)
  /\ serve release (POST_coffees (<["description" := PNone]> body)) db
     = serve release (POST_coffees (delete "description" body)) db
  /\ serve release (PUT_coffee k (<["description" := PNone]> body)) db
     = serve release (PUT_coffee k (delete "description" body)) db.
Proof.
  assert (validate (<["description" := PNone]> body)
          = validate (delete "description" body)) as Hsame.
  { unfold CoffeeCreate_validate.
    rewrite lookup_insert_eq, lookup_delete_eq.
    by rewrite !lookup_insert_ne, !lookup_delete_ne. }
  split; [done|]. split; cbn [app]; unfold validated; by rewrite Hsame.
Qed.

(** X13: the dict of a [CoffeeCreate] validates back to the same model,
    whatever pydantic converts, so posting it is the create with that
    model and putting it is the update with it. *)
Theorem dict_validates_to_itself release (coffee_data : CoffeeCreate.t) db k :
  validate (CoffeeCreate_dict coffee_data) = Valid coffee_data
  /\ serve release (POST_coffees (CoffeeCreate_dict coffee_data)) db
     = run release (Create coffee_data) db
  /\ serve release (PUT_coffee k (CoffeeCreate_dict coffee_data)) db
     = run release (Update k coffee_data) db.
Proof.
  assert (validate (CoffeeCreate_dict coffee_data) = Valid coffee_data) as Hsame.
  { by destruct coffee_data as [name [description|] price]. }
  split; [done|]. split; cbn [app]; unfold validated; by rewrite Hsame.
Qed.

End Bodies.

(** * The scenarios and concrete instances *)

(** The scenarios of the service's description, on either pydantic release
    and whatever it converts: create a latte, read it, update it, delete
    it, read it again, then post a body without a price and list. *)
Example scenario_responses coerce_str coerce_float release :
  let serve := app coerce_str coerce_float release in
  let post := serve (POST_coffees latte_body) init_db in
  let get := serve (GET_coffee 1) post.1 in
  let put := serve (PUT_coffee 1 oat_latte_body) get.1 in
  let delete := serve (DELETE_coffee 1) put.1 in
  let get' := serve (GET_coffee 1) delete.1 in
  let post' := serve (POST_coffees no_price_body) get'.1 in
  let list := serve GET_coffees post'.1 in
  post.2 = {| status_code := 201; body := CoffeeItem latte_json |}
  /\ get.2 = {| status_code := 200; body := CoffeeItem latte_json |}
  /\ put.2 = {| status_code := 200; body := CoffeeItem oat_latte_json |}
  /\ delete.2 = {| status_code := 204; body := NoBody |}
  /\ get'.2 = {| status_code := 404; body := Detail "Coffee not found" |}
  /\ post'.2 = {| status_code := 422; body := ValidationErrors |}
  /\ list.2 = {| status_code := 200; body := CoffeeList [] |}.
Proof. destruct release; vm_compute; repeat split. Qed.

Lemma reachable_db_latte : reachable db_latte.
Proof. apply rtc_once. by exists (Create latte). Qed.

Lemma reachable_db_oat_latte : reachable db_oat_latte.
Proof. apply rtc_once. by exists (Create oat_latte). Qed.

Lemma reachable_db_two : reachable db_two.
Proof. apply (reachable_call (Create oat_latte)), reachable_db_latte. Qed.

(** C1 as stated fails: a body whose [name] is the empty string validates,
    whatever pydantic converts, and the create stores a record with an empty
    name. *)
Lemma empty_name_is_accepted :
  unnamed_body !! "name" = Some (PStr "")
  /\ forall coerce_str coerce_float release,
       CoffeeCreate_validate coerce_str coerce_float unnamed_body = Valid unnamed
       /\ app coerce_str coerce_float release (POST_coffees unnamed_body) init_db
          = ({| coffees := [row 1 unnamed]; coffee_id_seq := 2 |},
             {| status_code := 201;
                body := CoffeeItem (json_of (row 1 unnamed)) |}).
Proof.
  split; [done|]. intros coerce_str coerce_float release.
  destruct release; by vm_compute.
Qed.

(** C2 as stated fails: a body with a NUL in its name validates, and the
    create answers 500 and stores nothing; a body with an infinite price
    validates, and the create stores the record and answers 500 on
    pydantic 1, and 201 with a null price on pydantic 2, where the get
    shows a null price too. *)
Lemma create_then_get_fails :
  has_nul nul_name = true
  /\ (forall coerce_str coerce_float release,
        CoffeeCreate_validate coerce_str coerce_float nul_body = Valid nul_coffee
        /\ app coerce_str coerce_float release (POST_coffees nul_body) init_db
           = (init_db, internal_server_error))
  /\ (forall coerce_str coerce_float,
        CoffeeCreate_validate coerce_str coerce_float dear_body = Valid dear
        /\ app coerce_str coerce_float Pydantic1 (POST_coffees dear_body) init_db
           = ({| coffees := [row 1 dear]; coffee_id_seq := 2 |},
              internal_server_error)
        /\ (app coerce_str coerce_float Pydantic2 (POST_coffees dear_body)
              init_db).2
           = {| status_code := 201;
                body := CoffeeItem
                          {| CoffeeRead.json_id := 1;
                             CoffeeRead.json_name := "Latte";
                             CoffeeRead.json_description := None;
                             CoffeeRead.json_price := None |} |}
        /\ (app coerce_str coerce_float Pydantic2 (GET_coffee 1)
              (app coerce_str coerce_float Pydantic2 (POST_coffees dear_body)
                 init_db).1).2
           = {| status_code := 200;
                body := CoffeeItem
                          {| CoffeeRead.json_id := 1;
                             CoffeeRead.json_name := "Latte";
                             CoffeeRead.json_description := None;
                             CoffeeRead.json_price := None |} |}).
Proof.
  split; [done|]. split.
  - intros coerce_str coerce_float release. destruct release; by vm_compute.
  - intros coerce_str coerce_float. by vm_compute.
Qed.

(** C3 as stated fails: an update of an existing record with a NUL in the
    name answers 500 and changes nothing; an update with an infinite price
    is stored, and answers 500 on pydantic 1 and 200 with a null price on
    pydantic 2, where the get shows a null price too. *)
Lemma update_then_get_fails :
  1 ∈ ids db_latte
  /\ (forall release,
        run release (Update 1 nul_coffee) db_latte
        = (db_latte, internal_server_error))
  /\ run Pydantic1 (Update 1 dear) db_latte
     = ({| coffees := [row 1 dear]; coffee_id_seq := 2 |}, internal_server_error)
  /\ (run Pydantic2 (Update 1 dear) db_latte).2
     = {| status_code := 200;
          body := CoffeeItem
                    {| CoffeeRead.json_id := 1;
                       CoffeeRead.json_name := "Latte";
                       CoffeeRead.json_description := None;
                       CoffeeRead.json_price := None |} |}
  /\ (run Pydantic2 (Get 1) (run Pydantic2 (Update 1 dear) db_latte).1).2
     = {| status_code := 200;
          body := CoffeeItem
                    {| CoffeeRead.json_id := 1;
                       CoffeeRead.json_name := "Latte";
                       CoffeeRead.json_description := None;
                       CoffeeRead.json_price := None |} |}.
Proof.
  split; [apply list_elem_of_here|]. split; [|by vm_compute].
  intros release. destruct release; by vm_compute.
Qed.

(** C5 as stated fails: on an id beyond the range of the id column, which
    no record carries, get, update and delete answer 500. *)
Lemma out_of_range_id_is_no_404 :
  (2147483648 ∉ ids init_db)
  /\ forall release input,
       run release (Get 2147483648) init_db = (init_db, internal_server_error)
       /\ run release (Update 2147483648 input) init_db
          = (init_db, internal_server_error)
       /\ run release (Delete 2147483648) init_db
          = (init_db, internal_server_error).
Proof. split; [apply not_elem_of_nil|]. intros release input. done. Qed.

(** C6 as stated fails: a create with a NUL in the name assigns no id: it
    answers 500, stores nothing and leaves the sequence where it was. *)
Lemma create_can_assign_no_id :
  has_nul (CoffeeCreate.name nul_coffee) = true
  /\ forall release,
       run release (Create nul_coffee) db_latte
       = (db_latte, internal_server_error).
Proof. split; [done|]. intros release. by destruct release. Qed.

(** C8 as stated fails: on pydantic 1, a create with an infinite price
    answers 500, yet the record is stored, and the list, which answered
    200 before, answers 500 after. *)
Lemma failed_create_is_stored :
  dear_body !! "price" = Some (PFloat infinity)
  /\ forall coerce_str coerce_float,
       let r := app coerce_str coerce_float Pydantic1 (POST_coffees dear_body)
                    init_db in
       is_failure r.2 = true
       /\ coffees r.1 = [row 1 dear]
       /\ (app coerce_str coerce_float Pydantic1 GET_coffees init_db).2
          = {| status_code := 200; body := CoffeeList [] |}
       /\ (app coerce_str coerce_float Pydantic1 GET_coffees r.1).2
          = internal_server_error.
Proof. split; [done|]. intros coerce_str coerce_float. by vm_compute. Qed.

Lemma create_then_get_witness :
  reachable init_db
  /\ coffee_id_seq init_db <= int4_max
  /\ storable_data latte = true
  /\ is_finite (CoffeeCreate.price latte) = true
  /\ forall coerce_str coerce_float release,
       CoffeeCreate_validate coerce_str coerce_float latte_body = Valid latte
       /\ (app coerce_str coerce_float release (POST_coffees latte_body)
             init_db).2
          = {| status_code := 201; body := CoffeeItem latte_json |}
       /\ (app coerce_str coerce_float release (GET_coffee 1) db_latte).2
          = {| status_code := 200; body := CoffeeItem latte_json |}.
Proof.
  assert (reachable init_db) as Hreach by apply rtc_refl.
  assert (coffee_id_seq init_db <= int4_max) as Hseq by discriminate.
  assert (storable_data latte = true) as Hstor by reflexivity.
  assert (is_finite (CoffeeCreate.price latte) = true) as Hfin by reflexivity.
  split; [exact Hreach|]. split; [exact Hseq|]. split; [exact Hstor|].
  split; [exact Hfin|]. intros coerce_str coerce_float release.
  assert (CoffeeCreate_validate coerce_str coerce_float latte_body = Valid latte)
    as Hvalid by reflexivity.
  destruct (create_then_get coerce_str coerce_float release init_db latte_body
              latte Hreach Hseq Hvalid Hstor Hfin) as (Hpost & Hget & _).
  split; [exact Hvalid|]. split; [exact Hpost | exact Hget].
Defined.

Lemma update_then_get_witness :
  reachable db_latte
  /\ 1 ∈ ids db_latte
  /\ storable_data oat_latte = true
  /\ is_finite (CoffeeCreate.price oat_latte) = true
  /\ forall release,
     exists view,
       (run release (Update 1 oat_latte) db_latte).2
         = {| status_code := 200; body := CoffeeItem view |}
       /\ (run release (Get 1) (run release (Update 1 oat_latte) db_latte).1).2
          = {| status_code := 200; body := CoffeeItem view |}
       /\ CoffeeRead.json_id view = 1
       /\ CoffeeRead.json_name view = CoffeeCreate.name oat_latte
       /\ CoffeeRead.json_description view = CoffeeCreate.description oat_latte
       /\ exists p,
            CoffeeRead.json_price view = Some p
            /\ float_eq (CoffeeCreate.price oat_latte) p = true
            /\ (is_zero (CoffeeCreate.price oat_latte) = false ->
                p = CoffeeCreate.price oat_latte).
Proof.
  assert (1 ∈ ids db_latte) as Hin by apply list_elem_of_here.
  split; [exact reachable_db_latte|]. split; [exact Hin|].
  split; [reflexivity|]. split; [reflexivity|]. intros release.
  exact (update_then_get release db_latte 1 oat_latte reachable_db_latte Hin
           eq_refl eq_refl).
Defined.

Lemma delete_is_terminal_witness :
  let db' := (call (Create latte) (run Pydantic1 (Delete 1) db_latte).1).1 in
  status_code (run Pydantic1 (Delete 1) db_latte).2 = 204
  /\ rtc (step_without_create_of 1) (run Pydantic1 (Delete 1) db_latte).1 db'
  /\ run Pydantic1 (Get 1) db' = (db', not_found)
  /\ run Pydantic1 (Update 1 oat_latte) db' = (db', not_found)
  /\ run Pydantic1 (Delete 1) db' = (db', not_found).
Proof.
  intros db'.
  assert (status_code (run Pydantic1 (Delete 1) db_latte).2 = 204) as Hok
    by reflexivity.
  assert (rtc (step_without_create_of 1)
              (run Pydantic1 (Delete 1) db_latte).1 db') as Hsteps.
  { apply rtc_once. exists (Create latte). split; [reflexivity|].
    intros input _. vm_compute. discriminate. }
  split; [exact Hok|]. split; [exact Hsteps|].
  exact (delete_is_terminal Pydantic1 db_latte 1 oat_latte db' Hok Hsteps).
Defined.

Lemma not_found_iff_absent_witness :
  in_int4 7 = true
  /\ (7 ∉ ids db_latte)
  /\ forall release,
       (run release (Get 7) db_latte).2 = not_found
       /\ (run release (Update 7 oat_latte) db_latte).2 = not_found
       /\ (run release (Delete 7) db_latte).2 = not_found.
Proof.
  assert (in_int4 7 = true) as Hin by reflexivity.
  assert (7 ∉ ids db_latte) as Hk.
  { intros [=]%list_elem_of_singleton. }
  split; [exact Hin|]. split; [exact Hk|]. intros release.
  destruct (not_found_iff_absent release db_latte 7 oat_latte Hin)
    as (_ & [_ Hget] & [_ Hput] & [_ Hdelete] & _).
  split; [exact (Hget Hk)|]. split; [exact (Hput Hk) | exact (Hdelete Hk)].
Defined.

Lemma create_assigns_fresh_id_witness :
  reachable db_latte
  /\ forall release,
       NoDup (ids (run release (Create oat_latte) db_latte).1)
       /\ (2 ∉ ids db_latte)
       /\ forall view,
            (run release (Create oat_latte) db_latte).2
              = {| status_code := 201; body := CoffeeItem view |} ->
            CoffeeRead.json_id view = 2
            /\ ids (run release (Create oat_latte) db_latte).1 = [1; 2]
            /\ select_by_id (run release (Create oat_latte) db_latte).1 2
               = Some (row 2 oat_latte).
Proof.
  split; [exact reachable_db_latte|]. intros release.
  destruct (create_assigns_fresh_id release db_latte oat_latte reachable_db_latte)
    as (_ & Hnodup & Hfresh & _ & _ & Hcreated & _).
  split; [exact Hnodup|]. split; [exact Hfresh | exact Hcreated].
Defined.

Lemma reads_are_idempotent_witness :
  Forall (fun op => is_read op = true) [List_; Get 2]
  /\ forall release,
       (exec release [List_; Get 2] db_latte).1 = db_latte
       /\ (run release (Get 1)
             (exec release [List_; Get 2] (run release (Get 1) db_latte).1).1).2
          = (run release (Get 1) db_latte).2
       /\ (run release List_
             (exec release [List_; Get 2] (run release List_ db_latte).1).1).2
          = (run release List_ db_latte).2.
Proof.
  assert (Forall (fun op => is_read op = true) [List_; Get 2]) as Hreads
    by (repeat constructor).
  split; [exact Hreads|]. intros release.
  destruct (reads_are_idempotent release db_latte 1 [List_; Get 2] Hreads)
    as (_ & _ & Hsame & Hget & Hlist).
  split; [exact Hsame|]. split; [exact Hget | exact Hlist].
Defined.

Lemma failures_leave_store_unchanged_witness :
  no_price_body !! "price" = None
  /\ forall coerce_str coerce_float release,
       is_failure
         (app coerce_str coerce_float release (PUT_coffee 1 no_price_body)
              db_latte).2 = true
       /\ (app coerce_str coerce_float release (PUT_coffee 1 no_price_body)
               db_latte).1 = db_latte
       /\ (app coerce_str coerce_float release GET_coffees
             (app coerce_str coerce_float release (PUT_coffee 1 no_price_body)
                  db_latte).1).2
          = (app coerce_str coerce_float release GET_coffees db_latte).2.
Proof.
  split; [reflexivity|]. intros coerce_str coerce_float release.
  assert (is_failure
            (app coerce_str coerce_float release (PUT_coffee 1 no_price_body)
                 db_latte).2 = true) as Hfail by reflexivity.
  destruct (failures_leave_store_unchanged coerce_str coerce_float release
              (PUT_coffee 1 no_price_body) db_latte Hfail)
    as (Hstore & Hrows & _).
  split; [exact Hfail|]. split.
  - apply Hstore. discriminate.
  - apply Hrows. right. reflexivity.
Defined.

Lemma update_frame_witness :
  reachable db_two
  /\ 1 ∈ ids db_two
  /\ forall release,
       let db' := (run release (Update 1 oat_latte) db_two).1 in
       ids db' ≡ₚ ids db_two
       /\ length (coffees db') = length (coffees db_two)
       /\ coffee_id_seq db' = coffee_id_seq db_two
       /\ select_by_id db' 2 = select_by_id db_two 2
       /\ (row 2 oat_latte ∈ coffees db' <-> row 2 oat_latte ∈ coffees db_two).
Proof.
  assert (1 ∈ ids db_two) as Hin by apply list_elem_of_here.
  split; [exact reachable_db_two|]. split; [exact Hin|]. intros release db'.
  destruct (update_frame release db_two 1 oat_latte reachable_db_two Hin)
    as (Hids & Hlen & Hseq & _ & Hothers & Hrows & _).
  split; [exact Hids|]. split; [exact Hlen|]. split; [exact Hseq|]. split.
  - apply Hothers. discriminate.
  - apply Hrows. discriminate.
Defined.

Lemma update_without_description_erases_witness :
  select_by_id db_oat_latte 1 = Some (row 1 oat_latte)
  /\ Coffee.description (row 1 oat_latte) = Some "oat milk"
  /\ latte_body !! "description" = None
  /\ forall coerce_str coerce_float release,
       CoffeeCreate_validate coerce_str coerce_float latte_body = Valid latte
       /\ status_code
            (app coerce_str coerce_float release (PUT_coffee 1 latte_body)
                 db_oat_latte).2 = 200
       /\ (exists view,
             (app coerce_str coerce_float release (PUT_coffee 1 latte_body)
                  db_oat_latte).2
               = {| status_code := 200; body := CoffeeItem view |}
             /\ CoffeeRead.json_description view = None)
       /\ (exists c',
             select_by_id
               (app coerce_str coerce_float release (PUT_coffee 1 latte_body)
                    db_oat_latte).1 1 = Some c'
             /\ Coffee.description c' = None).
Proof.
  assert (select_by_id db_oat_latte 1 = Some (row 1 oat_latte)) as Hget
    by reflexivity.
  assert (Coffee.description (row 1 oat_latte) = Some "oat milk") as Hdesc
    by reflexivity.
  assert (latte_body !! "description" = None) as Homit by reflexivity.
  split; [exact Hget|]. split; [exact Hdesc|]. split; [exact Homit|].
  intros coerce_str coerce_float release.
  assert (CoffeeCreate_validate coerce_str coerce_float latte_body = Valid latte)
    as Hvalid by reflexivity.
  assert (status_code
            (app coerce_str coerce_float release (PUT_coffee 1 latte_body)
                 db_oat_latte).2 = 200) as Hok
    by (destruct release; reflexivity).
  destruct (update_without_description_erases coerce_str coerce_float release
              db_oat_latte 1 latte_body latte (row 1 oat_latte) "oat milk"
              Hget Hdesc Homit Hvalid Hok) as (_ & Hview & Hstored).
  split; [exact Hvalid|]. split; [exact Hok|].
  split; [exact Hview | exact Hstored].
Defined.

Lemma list_agrees_with_get_witness :
  reachable db_two
  /\ (run Pydantic1 List_ db_two).2
     = {| status_code := 200; body := CoffeeList (map json_of (coffees db_two)) |}
  /\ forall k view,
       (run Pydantic1 (Get k) db_two).2
         = {| status_code := 200; body := CoffeeItem view |}
       <-> view ∈ map json_of (coffees db_two) /\ CoffeeRead.json_id view = k.
Proof.
  assert ((run Pydantic1 List_ db_two).2
          = {| status_code := 200;
               body := CoffeeList (map json_of (coffees db_two)) |}) as Hlist
    by reflexivity.
  split; [exact reachable_db_two|]. split; [exact Hlist|].
  exact (list_agrees_with_get Pydantic1 db_two _ reachable_db_two Hlist).
Defined.

Lemma create_adds_one_record_witness :
  reachable db_latte
  /\ (run Pydantic1 (Create oat_latte) db_latte).2
     = {| status_code := 201; body := CoffeeItem (json_of (row 2 oat_latte)) |}
  /\ (run Pydantic1 List_ db_latte).2
     = {| status_code := 200; body := CoffeeList [latte_json] |}
  /\ exists items',
       (run Pydantic1 List_ db_two).2
         = {| status_code := 200; body := CoffeeList items' |}
       /\ items' ≡ₚ json_of (row 2 oat_latte) :: [latte_json]
       /\ forall j, j <> 2 ->
                    (run Pydantic1 (Get j) db_two).2
                    = (run Pydantic1 (Get j) db_latte).2.
Proof.
  assert ((run Pydantic1 (Create oat_latte) db_latte).2
          = {| status_code := 201;
               body := CoffeeItem (json_of (row 2 oat_latte)) |}) as Hpost
    by reflexivity.
  assert ((run Pydantic1 List_ db_latte).2
          = {| status_code := 200; body := CoffeeList [latte_json] |}) as Hlist
    by reflexivity.
  split; [exact reachable_db_latte|]. split; [exact Hpost|].
  split; [exact Hlist|].
  exact (create_adds_one_record Pydantic1 db_latte oat_latte _ _
           reachable_db_latte Hpost Hlist).
Defined.

Lemma delete_removes_one_record_witness :
  reachable db_two
  /\ status_code (run Pydantic1 (Delete 1) db_two).2 = 204
  /\ (run Pydantic1 List_ db_two).2
     = {| status_code := 200; body := CoffeeList (map json_of (coffees db_two)) |}
  /\ exists view items',
       (run Pydantic1 (Get 1) db_two).2
         = {| status_code := 200; body := CoffeeItem view |}
       /\ (run Pydantic1 List_ (run Pydantic1 (Delete 1) db_two).1).2
          = {| status_code := 200; body := CoffeeList items' |}
       /\ map json_of (coffees db_two) ≡ₚ view :: items'
       /\ coffee_id_seq (run Pydantic1 (Delete 1) db_two).1 = coffee_id_seq db_two
       /\ forall j, j <> 1 ->
                    (run Pydantic1 (Get j) (run Pydantic1 (Delete 1) db_two).1).2
                    = (run Pydantic1 (Get j) db_two).2.
Proof.
  assert (status_code (run Pydantic1 (Delete 1) db_two).2 = 204) as Hok
    by reflexivity.
  assert ((run Pydantic1 List_ db_two).2
          = {| status_code := 200;
               body := CoffeeList (map json_of (coffees db_two)) |}) as Hlist
    by reflexivity.
  split; [exact reachable_db_two|]. split; [exact Hok|]. split; [exact Hlist|].
  exact (delete_removes_one_record Pydantic1 db_two 1 _ reachable_db_two
           Hok Hlist).
Defined.

Lemma update_with_current_values_changes_nothing_witness :
  reachable db_two
  /\ select_by_id db_two 1 = Some (row 1 latte)
  /\ is_finite (Coffee.price (row 1 latte)) = true
  /\ forall release,
       run release (Update 1 latte) db_two
       = (db_two, {| status_code := 200; body := CoffeeItem latte_json |}).
Proof.
  assert (select_by_id db_two 1 = Some (row 1 latte)) as Hget by reflexivity.
  assert (is_finite (Coffee.price (row 1 latte)) = true) as Hfin by reflexivity.
  split; [exact reachable_db_two|]. split; [exact Hget|]. split; [exact Hfin|].
  intros release.
  exact (update_with_current_values_changes_nothing release db_two 1
           (row 1 latte) latte reachable_db_two Hget eq_refl eq_refl eq_refl
           Hfin).
Defined.

Lemma create_then_delete_restores_rows_witness :
  reachable db_latte
  /\ coffee_id_seq db_latte <= int4_max
  /\ storable_data oat_latte = true
  /\ forall release,
       run release (Delete 2) (run release (Create oat_latte) db_latte).1
       = ({| coffees := coffees db_latte; coffee_id_seq := 3 |},
          {| status_code := 204; body := NoBody |}).
Proof.
  assert (coffee_id_seq db_latte <= int4_max) as Hseq by discriminate.
  assert (storable_data oat_latte = true) as Hstor by reflexivity.
  split; [exact reachable_db_latte|]. split; [exact Hseq|].
  split; [exact Hstor|]. intros release.
  exact (create_then_delete_restores_rows release db_latte oat_latte
           reachable_db_latte Hseq Hstor).
Defined.

Lemma record_count_witness :
  let ops := [Create oat_latte; Delete 1; Delete 1; Get 2; Create nul_coffee;
              Update 2 latte; Create latte] in
  reachable db_latte
  /\ Forall (fun op => finite_input op = true) ops
  /\ forall release,
       (length (coffees (exec release ops db_latte).1)
          + count_status 204 (exec release ops db_latte).2
        = length (coffees db_latte)
          + count_status 201 (exec release ops db_latte).2)%nat.
Proof.
  intros ops.
  assert (Forall (fun op => finite_input op = true) ops) as Hfin
    by (repeat constructor).
  split; [exact reachable_db_latte|]. split; [exact Hfin|]. intros release.
  exact (record_count release ops db_latte reachable_db_latte (or_intror Hfin)).
Defined.

Lemma nth_create_gets_id_n_witness :
  let ops := [Create latte; Delete 1; Create nul_coffee; Create oat_latte] in
  1 + Z.of_nat (length (List.filter uses_sequence ops)) <= int4_max
  /\ forall release,
       coffee_id_seq (exec release ops init_db).1 = 3
       /\ Forall (fun i => 1 <= i < 3) (ids (exec release ops init_db).1)
       /\ (storable_data latte = true ->
           is_finite (CoffeeCreate.price latte) = true ->
           (run release (Create latte) (exec release ops init_db).1).2
           = {| status_code := 201;
                body := CoffeeItem (json_of (row 3 latte)) |}).
Proof.
  intros ops.
  assert (1 + Z.of_nat (length (List.filter uses_sequence ops)) <= int4_max)
    as Hn by discriminate.
  split; [exact Hn|]. intros release.
  exact (nth_create_gets_id_n release ops latte Hn).
Defined.

Lemma undeclared_fields_are_ignored_witness :
  "id" <> "name" /\ "id" <> "description" /\ "id" <> "price"
  /\ forall coerce_str coerce_float release,
       CoffeeCreate_validate coerce_str coerce_float
         (<["id" := PInt 99]> latte_body)
       = CoffeeCreate_validate coerce_str coerce_float latte_body
       /\ app coerce_str coerce_float release
            (POST_coffees (<["id" := PInt 99]> latte_body)) init_db
          = app coerce_str coerce_float release (POST_coffees latte_body) init_db.
Proof.
  assert ("id" <> "name") as Hname by discriminate.
  assert ("id" <> "description") as Hdesc by discriminate.
  assert ("id" <> "price") as Hprice by discriminate.
  split; [exact Hname|]. split; [exact Hdesc|]. split; [exact Hprice|].
  intros coerce_str coerce_float release.
  destruct (undeclared_fields_are_ignored coerce_str coerce_float release
              latte_body "id" (PInt 99) init_db 1 Hname Hdesc Hprice)
    as (Hsame & Hpost & _).
  split; [exact Hsame | exact Hpost].
Defined.

Lemma deleting_every_id_empties_the_store_witness :
  reachable db_two
  /\ forall release,
       exec release [Delete 1; Delete 2] db_two
       = ({| coffees := []; coffee_id_seq := 3 |},
          [{| status_code := 204; body := NoBody |};
           {| status_code := 204; body := NoBody |}]).
Proof.
  split; [exact reachable_db_two|]. intros release.
  exact (deleting_every_id_empties_the_store release db_two reachable_db_two).
Defined.
